(** * Siraha Bazaar: the store locator's proximity ranking

    A shallow embedding of the ranking code that the components
    [client/src/components/NearbyStores.tsx] and
    [client/src/components/StoreMap.tsx] share word for word:
    [calculateDistance] (Haversine), [calculateDirection] (compass bucket of
    the forward azimuth), [formatDistance] and [getNearbyStores]; and of what
    surrounds it in the two components: the state ([userLocation], [loading],
    [error]), [getUserLocation], [setManualLocationHandler] of [StoreMap],
    and what is rendered from the state and the stores.

    Numbers.  The code is read in two ways.

    In [JS.num] an ECMAScript number is [NaN], one of the two infinities, or
    a finite value carried as an exact real; arithmetic on finite values is
    exact, and [Math.sin], [Math.cos], [Math.sqrt], [Math.atan2] and
    [Math.PI] are those of real analysis.  Rounding to binary64, overflow
    and the sign of zero are not represented.  This reading carries the
    statements that do not depend on them: the structure of the result, the
    texts that do not parse, and the values at given inputs that lie far
    from every rounding boundary.

    In [Binary64] a number is a binary64 value (a primitive float), with the
    correctly rounded [+], [-], [*], [/] and [Math.sqrt] of IEEE 754.
    [Math.sin], [Math.cos] and [Math.atan2], which ECMAScript leaves to the
    implementation, are parameters there.  This reading carries the
    statements in which rounding decides: the distance between antipodal
    points, the text of a distance, the order of equal distances.

    [Array.prototype.sort] is read in two ways as well: [Arr.sort] is the
    result that ECMAScript fixes for a consistent comparator, [Arr.sorts] is
    what it allows for any comparator. *)

From Stdlib Require Import Reals Lra Lia ZArith NArith List Permutation Sorted.
From Stdlib Require Import String Ascii Bool.
From Stdlib Require Import Zfloor Machin DecimalString DecimalFacts DecimalPos DecimalN.
From Stdlib Require Floats Uint63.

Import ListNotations.

Local Open Scope R_scope.

(** ** ECMAScript numbers *)

Module JS.

Inductive num : Type :=
| NaN : num
| Inf (negative : bool) : num
| Fin (r : R) : num.

Definition is_neg (r : R) : bool := if Rlt_dec r 0 then true else false.

Definition neg (x : num) : num :=
  match x with
  | NaN => NaN
  | Inf s => Inf (negb s)
  | Fin r => Fin (- r)
  end.

Definition add (x y : num) : num :=
  match x, y with
  | NaN, _ | _, NaN => NaN
  | Inf s, Inf t => if Bool.eqb s t then Inf s else NaN
  | Inf s, Fin _ | Fin _, Inf s => Inf s
  | Fin a, Fin b => Fin (a + b)
  end.

Definition sub (x y : num) : num := add x (neg y).

Definition mul (x y : num) : num :=
  match x, y with
  | NaN, _ | _, NaN => NaN
  | Inf s, Inf t => Inf (xorb s t)
  | Inf s, Fin r | Fin r, Inf s =>
      if Req_dec_T r 0 then NaN else Inf (xorb s (is_neg r))
  | Fin a, Fin b => Fin (a * b)
  end.

Definition div (x y : num) : num :=
  match x, y with
  | NaN, _ | _, NaN => NaN
  | Inf _, Inf _ => NaN
  | Inf s, Fin r => Inf (xorb s (is_neg r))
  | Fin _, Inf _ => Fin 0
  | Fin a, Fin b =>
      if Req_dec_T b 0
      then (if Req_dec_T a 0 then NaN else Inf (is_neg a))
      else Fin (a / b)
  end.

(** [x >= y]: false as soon as one side is [NaN]. *)
Definition ge (x y : num) : bool :=
  match x, y with
  | NaN, _ | _, NaN => false
  | Inf s, Inf t => implb s t
  | Inf s, Fin _ => negb s
  | Fin _, Inf t => t
  | Fin a, Fin b => if Rle_dec b a then true else false
  end.

(** [x > 0], the test [Array.prototype.sort] applies to a comparator's
    result ([NaN] counts as [+0]). *)
Definition positive (x : num) : bool :=
  match x with
  | NaN => false
  | Inf s => negb s
  | Fin r => if Rlt_dec 0 r then true else false
  end.

(** [x < 0]. *)
Definition negative (x : num) : bool :=
  match x with
  | NaN => false
  | Inf s => s
  | Fin r => if Rlt_dec r 0 then true else false
  end.

(** Truncation toward zero, and the remainder [x % y], whose sign is the
    dividend's. *)
Definition Ztrunc (r : R) : Z := if Rlt_dec r 0 then Zceil r else Zfloor r.

Definition rem (x y : num) : num :=
  match x, y with
  | NaN, _ | _, NaN => NaN
  | Inf _, _ => NaN
  | Fin a, Inf _ => Fin a
  | Fin a, Fin b =>
      if Req_dec_T b 0 then NaN else Fin (a - b * IZR (Ztrunc (a / b)))
  end.

End JS.

Declare Scope js_scope.
Delimit Scope js_scope with js.
Bind Scope js_scope with JS.num.
Notation "x + y" := (JS.add x y) : js_scope.
Notation "x - y" := (JS.sub x y) : js_scope.
Notation "x * y" := (JS.mul x y) : js_scope.
Notation "x / y" := (JS.div x y) : js_scope.
Notation "x >= y" := (JS.ge x y) : js_scope.
Notation "x 'mod' y" := (JS.rem x y) : js_scope.
Coercion JS.Fin : R >-> JS.num.

(** ** The [Math] object *)

Module Math.
Import JS.

Definition PI : num := Fin Rtrigo1.PI.

Definition sin (x : num) : num :=
  match x with Fin r => Fin (Rtrigo_def.sin r) | _ => NaN end.

Definition cos (x : num) : num :=
  match x with Fin r => Fin (Rtrigo_def.cos r) | _ => NaN end.

Definition sqrt (x : num) : num :=
  match x with
  | NaN => NaN
  | Inf s => if s then NaN else Inf false
  | Fin r => if Rlt_dec r 0 then NaN else Fin (R_sqrt.sqrt r)
  end.

(** The angle of the point [(x, y)], in [(-PI, PI]]. *)
Definition Ratan2 (y x : R) : R :=
  if Rlt_dec 0 x then atan (y / x)
  else if Rlt_dec x 0 then
    (if Rlt_dec y 0 then atan (y / x) - Rtrigo1.PI
     else atan (y / x) + Rtrigo1.PI)
  else if Rlt_dec 0 y then Rtrigo1.PI / 2
  else if Rlt_dec y 0 then - (Rtrigo1.PI / 2)
  else 0.

Definition sgn (negative : bool) : R := if negative then -1 else 1.

Definition atan2 (y x : num) : num :=
  match y, x with
  | NaN, _ | _, NaN => NaN
  | Fin a, Fin b => Fin (Ratan2 a b)
  | Fin a, Inf false => Fin 0
  | Fin a, Inf true => Fin (sgn (is_neg a) * Rtrigo1.PI)
  | Inf s, Fin _ => Fin (sgn s * (Rtrigo1.PI / 2))
  | Inf s, Inf false => Fin (sgn s * (Rtrigo1.PI / 4))
  | Inf s, Inf true => Fin (sgn s * (3 * Rtrigo1.PI / 4))
  end.

(** [Math.round]: the nearest integer, a tie going up. *)
Definition round (x : num) : num :=
  match x with
  | Fin r => Fin (IZR (Zfloor (r + / 2)))
  | _ => x
  end.

End Math.

(** ** Strings, [parseFloat], [String.prototype.split] *)

Module Str.
Import JS.
Local Open Scope string_scope.

Definition is_digit (c : ascii) : bool :=
  (48 <=? nat_of_ascii c)%nat && (nat_of_ascii c <=? 57)%nat.

(** White space and line terminators of the ASCII range. *)
Definition is_space (c : ascii) : bool :=
  let n := nat_of_ascii c in
  ((9 <=? n)%nat && (n <=? 13)%nat) || (n =? 32)%nat.

Fixpoint trim_start (s : string) : string :=
  match s with
  | String c s' => if is_space c then trim_start s' else s
  | EmptyString => EmptyString
  end.

(** The longest prefix of decimal digits, and what follows it. *)
Fixpoint span_digits (s : string) : string * string :=
  match s with
  | String c s' =>
      if is_digit c
      then let (d, r) := span_digits s' in (String c d, r)
      else (EmptyString, s)
  | EmptyString => (EmptyString, EmptyString)
  end.

Fixpoint digits_value (acc : N) (s : string) : N :=
  match s with
  | String c s' =>
      digits_value (10 * acc + N.of_nat (nat_of_ascii c - 48)) s'
  | EmptyString => acc
  end.

Definition take_sign (s : string) : bool * string :=
  match s with
  | String "-" s' => (true, s')
  | String "+" s' => (false, s')
  | _ => (false, s)
  end.

(** What the longest prefix that is a [StrDecimalLiteral] denotes:
    [mantissa * 10 ^ exponent], signed, or an infinity. *)
Inductive literal : Type :=
| LitInfinity (negative : bool)
| LitDecimal (negative : bool) (mantissa : N) (exponent : Z).

Definition exponent_part (s : string) : Z :=
  match s with
  | String c s' =>
      if (c =? "e")%char || (c =? "E")%char then
        let (negative, s'') := take_sign s' in
        let (d, _) := span_digits s'' in
        match d with
        | EmptyString => 0%Z
        | _ => let e := Z.of_N (digits_value 0 d) in
               if negative then (- e)%Z else e
        end
      else 0%Z
  | EmptyString => 0%Z
  end.

Definition parse_literal (input : string) : option literal :=
  let (negative, s) := take_sign (trim_start input) in
  if prefix "Infinity" s then Some (LitInfinity negative) else
  let (d1, r1) := span_digits s in
  let (d2, r2) :=
    match r1 with
    | String "." r => span_digits r
    | _ => (EmptyString, r1)
    end in
  match d1 ++ d2 with
  | EmptyString => None
  | ds =>
      Some (LitDecimal negative (digits_value 0 ds)
              (exponent_part r2 - Z.of_nat (length d2)))
  end.

Definition literal_value (l : literal) : num :=
  match l with
  | LitInfinity negative => Inf negative
  | LitDecimal negative m e =>
      Fin ((if negative then -1 else 1) * IZR (Z.of_N m) * powerRZ 10 e)
  end.

(** [parseFloat]: [NaN] when no prefix of the trimmed text is a literal. *)
Definition parseFloat (input : string) : num :=
  match parse_literal input with
  | Some l => literal_value l
  | None => NaN
  end.

(** [s.split(sep)] for a one-character separator: never the empty array. *)
Fixpoint split (sep : ascii) (s : string) : list string :=
  match s with
  | EmptyString => [EmptyString]
  | String c s' =>
      if (c =? sep)%char then EmptyString :: split sep s'
      else match split sep s' with
           | piece :: pieces => String c piece :: pieces
           | [] => [String c EmptyString]
           end
  end.

(** A value spliced into a text ([`${v}`]) or passed where a text is
    expected: [undefined] reads "undefined". *)
Definition to_text (v : option string) : string :=
  match v with Some s => s | None => "undefined" end.

Definition decimal_digits (n : N) : string :=
  NilZero.string_of_uint (N.to_uint n).

End Str.

(** ** Array indexing and [Array.prototype.sort] *)

Module Arr.
Import JS.

(** [a[i]] for a number [i]: [undefined] unless [i] is an integer index
    inside the array. *)
Definition get {A : Type} (a : list A) (i : num) : option A :=
  match i with
  | Fin r =>
      let z := Zfloor r in
      if Req_dec_T r (IZR z)
      then (if (0 <=? z)%Z then nth_error a (Z.to_nat z) else None)
      else None
  | _ => None
  end.

(** [a.sort(comparefn)].  ECMAScript requires the sort to be stable and, for
    a consistent comparator, fixes the result; it is modelled by the
    insertion sort that lets an element pass those it is strictly greater
    than ([comparefn(x, y) > 0]).  What ECMAScript allows when the
    comparator is not consistent is [sorts], below. *)
Section Sort.
Context {A : Type} (comparefn : A -> A -> num).

Fixpoint insert (x : A) (l : list A) : list A :=
  match l with
  | [] => [x]
  | y :: l' =>
      if positive (comparefn x y) then y :: insert x l' else x :: l
  end.

Fixpoint sort (l : list A) : list A :=
  match l with
  | [] => []
  | x :: l' => insert x (sort l')
  end.
End Sort.

(** The comparator is consistent on the elements of [l], in the sense of
    ECMAScript: its result is never [NaN], and the three relations "below"
    (a negative result), "level" (zero) and "above" (a positive result) are
    what an ordering needs: "level" is reflexive, symmetric and transitive,
    "below" and "above" are transitive. *)
Section Consistent.
Context {A : Type} (comparefn : A -> A -> num).

Definition below (a b : A) : Prop := negative (comparefn a b) = true.
Definition level (a b : A) : Prop := comparefn a b = Fin 0.
Definition above (a b : A) : Prop := positive (comparefn a b) = true.

Definition consistent (l : list A) : Prop :=
  (forall a b, In a l -> In b l -> comparefn a b <> NaN) /\
  (forall a, In a l -> level a a) /\
  (forall a b, In a l -> In b l -> level a b -> level b a) /\
  (forall a b c, In a l -> In b l -> In c l ->
     level a b -> level b c -> level a c) /\
  (forall a b c, In a l -> In b l -> In c l ->
     below a b -> below b c -> below a c) /\
  (forall a b c, In a l -> In b l -> In c l ->
     above a b -> above b c -> above a c).

(** What [l.sort(comparefn)] may leave in the array: the same elements; in
    the one order that [sort] computes when the comparator is consistent,
    in an order that the implementation chooses when it is not. *)
Definition sorts (l l' : list A) : Prop :=
  Permutation l l' /\ (consistent l -> l' = sort comparefn l).
End Consistent.

End Arr.

(** ** Exceptions *)

Inductive exn : Type := RangeError | TypeError.

Inductive result (A : Type) : Type :=
| Ok (a : A)
| Throw (e : exn).
Arguments Ok {A} a.
Arguments Throw {A} e.

Definition bind {A B : Type} (m : result A) (k : A -> result B) : result B :=
  match m with
  | Ok a => k a
  | Throw e => Throw e
  end.

Notation "x <- m ;; k" := (bind m (fun x => k))
  (at level 61, m at next level, right associativity).

(** [a.map(f)] for a callback that may throw: the first exception ends it. *)
Fixpoint mapM {A B : Type} (f : A -> result B) (l : list A) : result (list B) :=
  match l with
  | [] => Ok []
  | x :: l' => y <- f x ;; ys <- mapM f l' ;; Ok (y :: ys)
  end.

(** ** The data of the two components *)

(** [interface Store].  The coordinates are stored as text; the code guards
    against a missing one ([store.latitude || '0']), so they are optional
    here.  [createdAt] (a [Date]) is not read by the ranking and is left
    out. *)
Record Store : Type := {
  id : Z;
  name : string;
  address : string;
  latitude : option string;
  longitude : option string;
  phone : string;
  description : option string;
  ownerId : Z;
  isActive : bool;
  website : option string;
  logo : option string;
  rating : option JS.num;
  totalReviews : option JS.num;
  googleMapsLink : option string
}.

(** [{ lat, lng }]: the [userLocation] state (when it is not [null]) and the
    [storeLocation] of a result. *)
Record LatLng : Type := { lat : JS.num; lng : JS.num }.

(** An element of what [getNearbyStores] returns:
    [{ ...store, storeLocation, distance }]. *)
Record NearbyStore : Type := {
  store : Store;
  storeLocation : LatLng;
  distance : string
}.

(** [const sampleStores], the default value of the [stores] property of
    [NearbyStores]. *)
Definition sampleStores : list Store :=
  [ {| id := 1; name := "Nepal Electronics"; address := "Maitidevi, Kathmandu";
       latitude := Some "27.7058"%string; longitude := Some "85.3292"%string;
       phone := "+977 1 4223456";
       description := Some "Electronics store with wide range of products"%string;
       ownerId := 1; isActive := true;
       website := Some "https://nepalelectronics.com"%string;
       logo := Some "https://via.placeholder.com/150"%string;
       rating := Some (JS.Fin 4.5); totalReviews := Some (JS.Fin 120);
       googleMapsLink := Some "https://maps.google.com/?q=27.7058,85.3292"%string |};
    {| id := 2; name := "Tech World"; address := "Biratnagar";
       latitude := Some "26.4672"%string; longitude := Some "87.2744"%string;
       phone := "+977 23 4223456";
       description := Some "Modern electronics and computer store"%string;
       ownerId := 2; isActive := true;
       website := Some "https://techworld.com.np"%string;
       logo := Some "https://via.placeholder.com/150"%string;
       rating := Some (JS.Fin 4.2); totalReviews := Some (JS.Fin 85);
       googleMapsLink := Some "https://maps.google.com/?q=26.4672,87.2744"%string |};
    {| id := 3; name := "Smart Devices"; address := "Pokhara";
       latitude := Some "28.2418"%string; longitude := Some "83.9718"%string;
       phone := "+977 61 4223456";
       description := Some "Smartphone and gadget store"%string;
       ownerId := 3; isActive := true;
       website := Some "https://smartdevices.com.np"%string;
       logo := Some "https://via.placeholder.com/150"%string;
       rating := Some (JS.Fin 4.7); totalReviews := Some (JS.Fin 150);
       googleMapsLink := Some "https://maps.google.com/?q=28.2418,83.9718"%string |};
    {| id := 4; name := "Digital Hub"; address := "Lalitpur";
       latitude := Some "27.6672"%string; longitude := Some "85.3240"%string;
       phone := "+977 1 4223456";
       description := Some "Digital products and accessories"%string;
       ownerId := 4; isActive := true;
       website := Some "https://digitalhub.com.np"%string;
       logo := Some "https://via.placeholder.com/150"%string;
       rating := Some (JS.Fin 4.3); totalReviews := Some (JS.Fin 95);
       googleMapsLink := Some "https://maps.google.com/?q=27.6672,85.3240"%string |};
    {| id := 5; name := "Tech Solutions"; address := "Birgunj";
       latitude := Some "27.2543"%string; longitude := Some "84.7222"%string;
       phone := "+977 51 4223456";
       description := Some "Computer and IT solutions"%string;
       ownerId := 5; isActive := true;
       website := Some "https://techsolutions.com.np"%string;
       logo := Some "https://via.placeholder.com/150"%string;
       rating := Some (JS.Fin 4.1); totalReviews := Some (JS.Fin 75);
       googleMapsLink := Some "https://maps.google.com/?q=27.2543,84.7222"%string |} ].

(** [v || d] on an optional text: the empty text is falsy too. *)
Definition or_else (v : option string) (d : string) : string :=
  match v with
  | Some EmptyString | None => d
  | Some s => s
  end.

(** ** The ranking code *)

Section Ranker.

(** [Number::toString] of a magnitude of [10^21] or more (the exponent
    notation, with the shortest digits that read back as the same binary64
    value) has no counterpart on exact reals: it is a parameter.  The
    ranking never reaches it. *)
Variable exponential : R -> string.

Import JS.

Definition pad_start (k : nat) (m : string) : string :=
  (string_of_list_ascii (repeat "0"%char (k - String.length m)) ++ m)%string.

(** The digits of [n / 10^f], [f] of them after the point. *)
Definition fixed_notation (n : N) (f : nat) : string :=
  let m := Str.decimal_digits n in
  match f with
  | O => m
  | S _ =>
      let m := pad_start (S f) m in
      let k := String.length m in
      (substring 0 (k - f) m ++ "." ++ substring (k - f) f m)%string
  end.

(** [x.toFixed(fractionDigits)]. *)
Definition toFixed (x : num) (fractionDigits : Z) : result string :=
  if ((fractionDigits <? 0) || (100 <? fractionDigits))%Z then Throw RangeError
  else
    let f := Z.to_nat fractionDigits in
    match x with
    | NaN => Ok "NaN"%string
    | Inf negative => Ok (if negative then "-Infinity" else "Infinity")%string
    | Fin r =>
        let s := (if is_neg r then "-" else "")%string in
        let x := Rabs r in
        if Rle_dec (10 ^ 21) x then Ok (s ++ exponential x)%string
        else
          let n := Zfloor (x * 10 ^ f + / 2) in
          Ok (s ++ fixed_notation (Z.to_N n) f)%string
    end.

(** Calculate distance between two points using Haversine formula. *)
Definition calculateDistance (lat1 lon1 lat2 lon2 : num) : num :=
  let R : num := 6371 in
  let dLat := ((lat2 - lat1) * Math.PI / 180)%js in
  let dLon := ((lon2 - lon1) * Math.PI / 180)%js in
  let a :=
    (Math.sin (dLat / 2) * Math.sin (dLat / 2) +
     Math.cos (lat1 * Math.PI / 180) * Math.cos (lat2 * Math.PI / 180) *
     Math.sin (dLon / 2) * Math.sin (dLon / 2))%js in
  let c := (2 * Math.atan2 (Math.sqrt a) (Math.sqrt (1 - a)))%js in
  (R * c)%js.

Definition directions : list string :=
  ["N"; "NE"; "E"; "SE"; "S"; "SW"; "W"; "NW"]%string.

(** The bearing in degrees, as [Math.atan2] gives it: in [[-180, 180]]. *)
Definition bearing (lat1 lon1 lat2 lon2 : num) : num :=
  let dLon := ((lon2 - lon1) * Math.PI / 180)%js in
  let y := (Math.sin dLon * Math.cos (lat2 * Math.PI / 180))%js in
  let x :=
    (Math.cos (lat1 * Math.PI / 180) * Math.sin (lat2 * Math.PI / 180) -
     Math.sin (lat1 * Math.PI / 180) * Math.cos (lat2 * Math.PI / 180) *
     Math.cos dLon)%js in
  (Math.atan2 y x * 180 / Math.PI)%js.

(** [const index = Math.round(bearing / 45) % 8], the remainder written
    [mod]. *)
Definition directionIndex (lat1 lon1 lat2 lon2 : num) : num :=
  (Math.round (bearing lat1 lon1 lat2 lon2 / 45) mod 8)%js.

(** Calculate direction using bearing formula; [None] is [undefined]. *)
Definition calculateDirection (lat1 lon1 lat2 lon2 : num) : option string :=
  Arr.get directions (directionIndex lat1 lon1 lat2 lon2).

Definition formatDistance (distance : num) : result string :=
  if (distance >= 1)%js
  then (s <- toFixed distance 1 ;; Ok (s ++ "km")%string)
  else (s <- toFixed (distance * 1000)%js 0 ;; Ok (s ++ "m")%string).

(** The callback of [stores.map]. *)
Definition annotate (userLocation : LatLng) (store : Store)
  : result NearbyStore :=
  let storeLocation :=
    {| lat := Str.parseFloat (or_else (latitude store) "0");
       lng := Str.parseFloat (or_else (longitude store) "0") |} in
  let distance :=
    calculateDistance (lat userLocation) (lng userLocation)
      (lat storeLocation) (lng storeLocation) in
  let direction :=
    calculateDirection (lat userLocation) (lng userLocation)
      (lat storeLocation) (lng storeLocation) in
  shown <- formatDistance distance ;;
  Ok {| store := store;
        storeLocation := storeLocation;
        distance := (shown ++ " (" ++ Str.to_text direction ++ ")")%string |}.

(** [parseFloat(a.distance.split(' ')[0])]. *)
Definition sortKey (a : NearbyStore) : num :=
  Str.parseFloat (Str.to_text (Arr.get (Str.split " " (distance a)) 0)).

(** The comparator of the final [sort]: [aDist - bDist]. *)
Definition compareByShown (a b : NearbyStore) : num :=
  let aDist := sortKey a in
  let bDist := sortKey b in
  (aDist - bDist)%js.

Definition getNearbyStores (userLocation : option LatLng) (stores : list Store)
  : result (list NearbyStore) :=
  match userLocation with
  | None => Ok []
  | Some userLocation =>
      annotated <- mapM (annotate userLocation) stores ;;
      Ok (Arr.sort compareByShown annotated)
  end.

(** [getNearbyStores], with the sort left as free as ECMAScript leaves it:
    [result] is a value that a call may return. *)
Definition getNearbyStores_returns (userLocation : option LatLng)
           (stores : list Store) (result : list NearbyStore) : Prop :=
  match userLocation with
  | None => result = []
  | Some userLocation =>
      exists annotated,
        mapM (annotate userLocation) stores = Ok annotated /\
        Arr.sorts compareByShown annotated result
  end.

End Ranker.

(** ** The arithmetic of the ranking code in binary64 *)

Module Binary64.
Import PrimFloat SpecFloat FloatOps.

(** The number that a binary64 value stands for. *)
Definition value (x : float) : JS.num :=
  match Prim2SF x with
  | S754_zero _ => JS.Fin 0
  | S754_infinity negative => JS.Inf negative
  | S754_nan => JS.NaN
  | S754_finite negative m e =>
      JS.Fin ((if negative then -1 else 1) * IZR (Zpos m) * powerRZ 2 e)
  end.

(** [Math.PI]: the binary64 value nearest to the number. *)
Definition PI : float := 0x1.921fb54442d18p+1%float.

Section Platform.

(** [Math.sin], [Math.cos] and [Math.atan2] of the engine. *)
Variables (sin cos : float -> float) (atan2 : float -> float -> float).

Local Open Scope float_scope.

(** What ECMAScript fixes of [Math.atan2]: it is [NaN] as soon as one
    argument is. *)
Definition Math_atan2 (y x : float) : float :=
  if (is_nan y || is_nan x)%bool then nan else atan2 y x.

(** Calculate distance between two points using Haversine formula. *)
Definition calculateDistance (lat1 lon1 lat2 lon2 : float) : float :=
  let R := 6371 in
  let dLat := (lat2 - lat1) * PI / 180 in
  let dLon := (lon2 - lon1) * PI / 180 in
  let a :=
    sin (dLat / 2) * sin (dLat / 2) +
    cos (lat1 * PI / 180) * cos (lat2 * PI / 180) *
    sin (dLon / 2) * sin (dLon / 2) in
  let c := 2 * Math_atan2 (sqrt a) (sqrt (1 - a)) in
  R * c.

End Platform.

Section Format.

(** As in [toFixed] above: the exponent notation is a parameter. *)
Variable exponential : R -> string.

(** [toFixed] works on the number that its argument stands for; the
    product [distance * 1000] is the binary64 one. *)
Definition formatDistance (distance : float) : result string :=
  if JS.ge (value distance) (JS.Fin 1)
  then (s <- toFixed exponential (value distance) 1 ;; Ok (s ++ "km")%string)
  else (s <- toFixed exponential (value (distance * 1000)%float) 0 ;;
        Ok (s ++ "m")%string).

(** The object that the callback of [stores.map] returns, given the
    distance and the direction computed for the store. *)
Definition entry (store : Store) (storeLocation : LatLng)
           (distance : float) (direction : option string)
  : result NearbyStore :=
  shown <- formatDistance distance ;;
  Ok {| store := store;
        storeLocation := storeLocation;
        distance := (shown ++ " (" ++ Str.to_text direction ++ ")")%string |}.

End Format.

End Binary64.

(** ** Sine and cosine as fdlibm computes them

    The kernels of fdlibm, the library behind [Math.sin] and [Math.cos] in
    several engines, and its [sin] and [cos] on the arguments below
    [3 pi / 4] in magnitude, which need no more than one subtraction of
    [pi / 2]; larger arguments, which take the general reduction, are not
    followed here ([NaN]).  These functions serve as an instance of the
    parameters of [Binary64]. *)

Module Fdlibm.
Import PrimFloat FloatOps.
Local Open Scope float_scope.

Definition S1 : float := -0x1.5555555555549p-3.
Definition S2 : float := 0x1.111111110f8a6p-7.
Definition S3 : float := -0x1.a01a019c161d5p-13.
Definition S4 : float := 0x1.71de357b1fe7dp-19.
Definition S5 : float := -0x1.ae5e68a2b9cebp-26.
Definition S6 : float := 0x1.5d93a5acfd57cp-33.
Definition C1 : float := 0x1.555555555554cp-5.
Definition C2 : float := -0x1.6c16c16c15177p-10.
Definition C3 : float := 0x1.a01a019cb1590p-16.
Definition C4 : float := -0x1.27e4f809c52adp-22.
Definition C5 : float := 0x1.1ee9ebdb4b1c4p-29.
Definition C6 : float := -0x1.8fae9be8838d4p-37.
Definition pio2_1 : float := 0x1.921fb54400000p+0.
Definition pio2_1t : float := 0x1.0b4611a626331p-34.
Definition pio2_2 : float := 0x1.0b4611a600000p-34.
Definition pio2_2t : float := 0x1.3198a2e037073p-69.

(** [__kernel_sin(x, y, iy)]: the sine of [x + y] for [|x| <= pi / 4]. *)
Definition kernel_sin (x y : float) (iy : bool) : float :=
  if abs x <? 0x1p-27 then x
  else
    let z := x * x in
    let v := z * x in
    let r := S2 + z * (S3 + z * (S4 + z * (S5 + z * S6))) in
    if iy then x - ((z * (0.5 * y - v * r) - y) - v * S1)
    else x + v * (S1 + z * r).

(** [x >= 0] with the low word of its representation cleared. *)
Definition high_word (x : float) : float :=
  let (m, e) := Z.frexp x in
  let n := normfr_mantissa m in
  Z.ldexp
    (of_uint63 (PrimInt63.lsl (PrimInt63.lsr n (Uint63.of_Z 32)) (Uint63.of_Z 32)))
    (e - 53)%Z.

(** [__kernel_cos(x, y)]: the cosine of [x + y] for [|x| <= pi / 4]. *)
Definition kernel_cos (x y : float) : float :=
  if abs x <? 0x1p-27 then 1
  else
    let z := x * x in
    let r := z * (C1 + z * (C2 + z * (C3 + z * (C4 + z * (C5 + z * C6))))) in
    if abs x <? 0x1.33333p-2 then 1 - (0.5 * z - (z * r - x * y))
    else
      let qx := if 0x1.90001p-1 <=? abs x then 0.28125
                else high_word (abs x) / 4 in
      let iz := 0.5 * z - qx in
      let a := 1 - qx in
      a - (iz - (z * r - x * y)).

(** [__ieee754_rem_pio2] for [pi / 4 < |x| < 3 pi / 4]: [x - pi / 2] (or
    [x + pi / 2]) in two pieces. *)
Definition rem_pio2 (x : float) : float * float :=
  if 0 <? x then
    let z := x - pio2_1 in
    if ((0x1.921fbp+0 <=? x) && (x <? 0x1.921fcp+0))%bool then
      let z := z - pio2_2 in
      let y0 := z - pio2_2t in (y0, (z - y0) - pio2_2t)
    else
      let y0 := z - pio2_1t in (y0, (z - y0) - pio2_1t)
  else
    let z := x + pio2_1 in
    if ((0x1.921fbp+0 <=? - x) && (- x <? 0x1.921fcp+0))%bool then
      let z := z + pio2_2 in
      let y0 := z + pio2_2t in (y0, (z - y0) + pio2_2t)
    else
      let y0 := z + pio2_1t in (y0, (z - y0) + pio2_1t).

Definition sin (x : float) : float :=
  if abs x <? 0x1.921fcp-1 then kernel_sin x 0 false
  else if abs x <? 0x1.2d97cp+1 then
    let (y0, y1) := rem_pio2 x in
    if 0 <? x then kernel_cos y0 y1 else - kernel_cos y0 y1
  else nan.

Definition cos (x : float) : float :=
  if abs x <? 0x1.921fcp-1 then kernel_cos x 0
  else if abs x <? 0x1.2d97cp+1 then
    let (y0, y1) := rem_pio2 x in
    if 0 <? x then - kernel_sin y0 y1 true else kernel_sin y0 y1 true
  else nan.

End Fdlibm.

(** ** The components: state, location request, rendering *)

(** The value of the [userLocation] state when it is not [null]:
    [{ lat, lng, googleMapsLink?, coordinates? }]. *)
Module UserLocation.
Record t : Type := {
  lat : JS.num;
  lng : JS.num;
  googleMapsLink : option string;
  coordinates : option string
}.

(** What [getNearbyStores] reads of it. *)
Definition point (u : t) : LatLng := Build_LatLng (lat u) (lng u).
End UserLocation.

(** [StoreMap]'s [manualLocation] state: [{ lat, lon }], two texts. *)
Module ManualLocation.
Record t : Type := { lat : string; lon : string }.
End ManualLocation.

Module Component.
Import JS.
Local Open Scope string_scope.

(** The three [useState] cells that both components have. *)
Record State : Type := {
  userLocation : option UserLocation.t;
  loading : bool;
  error : option string
}.

(** [useState(null)], [useState(false)], [useState(null)]. *)
Definition initial : State :=
  {| userLocation := None; loading := false; error := None |}.

Definition setUserLocation (v : UserLocation.t) (s : State) : State :=
  {| userLocation := Some v; loading := loading s; error := error s |}.

Definition setLoading (v : bool) (s : State) : State :=
  {| userLocation := userLocation s; loading := v; error := error s |}.

Definition setError (v : option string) (s : State) : State :=
  {| userLocation := userLocation s; loading := loading s; error := v |}.

(** How the promise that [getUserLocation] awaits settles: with the
    coordinates of a position, or rejected (no geolocation, permission
    denied, position unavailable). *)
Inductive Outcome : Type :=
| Resolved (latitude longitude : num)
| Rejected.

Definition unable : string :=
  "Unable to get your location. Please make sure location services are enabled.".

Definition isNaN (x : num) : bool :=
  match x with NaN => true | _ => false end.

(** A card of the list (a marker of the map shows the same entry). *)
Record Card : Type := {
  title : string;
  place : string;
  shown : string;
  directionsLink : string;
  viewMapLink : string
}.

(** What stands below the header. *)
Inductive Body : Type :=
| Stores (centre : LatLng) (cards : list Card)
| NoStores          (* "No nearby stores found" *)
| GettingLocation   (* "Getting your location..." *)
| Blank.

Record View : Type := {
  refreshDisabled : bool;
  refreshLabel : string;
  viewOnMap : option (option string);
  errorShown : option string;
  yourLocation : option (option string);
  body : Body
}.

(** [v && ...] on a text or [null]. *)
Definition truthy (v : option string) : bool :=
  match v with
  | Some (String _ _) => true
  | _ => false
  end.

(** The two components. *)
Inductive Name : Type := NearbyStores | StoreMap.

Section Texts.

Variable exponential : R -> string.

(** [Number::toString] of a finite value (the shortest digits that read
    back as the same binary64 value) has no counterpart on exact reals: it
    is a parameter. *)
Variable toString : R -> string.

(** [`${x}`] for a number. *)
Definition numberToString (x : num) : string :=
  match x with
  | NaN => "NaN"
  | Inf negative => if negative then "-Infinity" else "Infinity"
  | Fin r => toString r
  end.

(** The object that [setUserLocation] receives. *)
Definition located (lat lng : num) : result UserLocation.t :=
  let googleMapsLink :=
    "https://www.google.com/maps?q=" ++ numberToString lat ++ "," ++
    numberToString lng in
  a <- toFixed exponential lat 6 ;;
  b <- toFixed exponential lng 6 ;;
  let coordinates := "Latitude: " ++ a ++ ", Longitude: " ++ b in
  Ok {| UserLocation.lat := lat;
        UserLocation.lng := lng;
        UserLocation.googleMapsLink := Some googleMapsLink;
        UserLocation.coordinates := Some coordinates |}.

(** [getUserLocation], up to its [await]. *)
Definition getUserLocation_begin (s : State) : State :=
  setError None (setLoading true s).

(** [getUserLocation], from its [await] on: [try], [catch], [finally]. *)
Definition getUserLocation_end (o : Outcome) (s : State) : State :=
  let s' :=
    match o with
    | Resolved lat lng =>
        match located lat lng with
        | Ok v => setUserLocation v s
        | Throw _ => setError (Some unable) s
        end
    | Rejected => setError (Some unable) s
    end in
  setLoading false s'.

(** [setManualLocationHandler] of [StoreMap]; an exception would leave the
    handler. *)
Definition setManualLocationHandler (manualLocation : ManualLocation.t) (s : State)
  : result State :=
  let lat := Str.parseFloat (ManualLocation.lat manualLocation) in
  let lon := Str.parseFloat (ManualLocation.lon manualLocation) in
  if negb (isNaN lat) && negb (isNaN lon)
  then v <- located lat lon ;; Ok (setUserLocation v s)
  else Ok s.

Definition card (e : NearbyStore) : Card :=
  let at_store :=
    numberToString (lat (storeLocation e)) ++ "," ++
    numberToString (lng (storeLocation e)) in
  {| title := name (store e);
     place := address (store e);
     shown := distance e;
     directionsLink :=
       "https://www.google.com/maps/dir/?api=1&destination=" ++ at_store;
     viewMapLink :=
       or_else (googleMapsLink (store e))
         ("https://www.google.com/maps?q=" ++ at_store) |}.

(** The component's function body after the handlers: [getNearbyStores()],
    then the JSX. *)
Definition render (stores : list Store) (s : State) : result View :=
  nearbyStores <-
    getNearbyStores exponential
      (option_map UserLocation.point (userLocation s)) stores ;;
  Ok {| refreshDisabled := loading s;
        refreshLabel :=
          if loading s then "Getting Location..." else "Refresh Location";
        viewOnMap := option_map UserLocation.googleMapsLink (userLocation s);
        errorShown := if truthy (error s) then error s else None;
        yourLocation := option_map UserLocation.coordinates (userLocation s);
        body :=
          match userLocation s with
          | Some u =>
              if (0 <? List.length nearbyStores)%nat
              then Stores (UserLocation.point u) (map card nearbyStores)
              else NoStores
          | None => if truthy (error s) then Blank else GettingLocation
          end |}.

(** What becomes of the elements once React and react-leaflet draw them:
    the view is shown, or Leaflet throws [Error('Invalid LatLng object')]. *)
Inductive Drawn : Type :=
| Shown (v : View)
| InvalidLatLng.

(** The positions handed to Leaflet: the centre of [MapContainer], the
    [Marker] of the user, one [Marker] per entry. *)
Definition positions (u : UserLocation.t) (nearbyStores : list NearbyStore)
  : list LatLng :=
  UserLocation.point u :: UserLocation.point u :: map storeLocation nearbyStores.

(** Leaflet is not part of the repository: [accepts] stands for what its
    [LatLng] takes without throwing. *)
Definition draw (accepts : LatLng -> bool) (stores : list Store) (s : State)
  : result Drawn :=
  nearbyStores <-
    getNearbyStores exponential
      (option_map UserLocation.point (userLocation s)) stores ;;
  v <- render stores s ;;
  Ok match userLocation s with
     | Some u =>
         if (0 <? List.length nearbyStores)%nat
         then (if forallb accepts (positions u nearbyStores)
               then Shown v else InvalidLatLng)
         else Shown v
     | None => Shown v
     end.

(** A component at work: its state, and the number of requests that have
    not settled yet. *)
Record Running : Type := { state : State; pending : nat }.

(** What happens to it: the button is clicked (it is disabled while
    [loading]), or a pending request settles. *)
Inductive Event : Type :=
| Click
| Settle (o : Outcome).

Definition step (c : Running) (e : Event) : Running :=
  match e with
  | Click =>
      if loading (state c) then c
      else {| state := getUserLocation_begin (state c);
              pending := S (pending c) |}
  | Settle o =>
      match pending c with
      | O => c
      | S n => {| state := getUserLocation_end o (state c); pending := n |}
      end
  end.

Definition run (c : Running) (events : list Event) : Running :=
  fold_left step events c.

(** [NearbyStores] calls [getUserLocation] in an effect when it mounts;
    [StoreMap] does not. *)
Definition mount (component : Name) : Running :=
  match component with
  | NearbyStores => {| state := getUserLocation_begin initial; pending := 1 |}
  | StoreMap => {| state := initial; pending := 0 |}
  end.

End Texts.

End Component.

(** ** The formulas on finite values *)

(** What [calculateDistance] and [bearing] compute when the four coordinates
    are finite, written on reals; [calculateDistance_finite] and
    [bearing_finite] below relate them to the code. *)
Definition rad (deg : R) : R := deg * PI / 180.

Definition haversine (lat1 lon1 lat2 lon2 : R) : R :=
  sin (rad (lat2 - lat1) / 2) * sin (rad (lat2 - lat1) / 2) +
  cos (rad lat1) * cos (rad lat2) *
  sin (rad (lon2 - lon1) / 2) * sin (rad (lon2 - lon1) / 2).

Definition distanceKm (lat1 lon1 lat2 lon2 : R) : R :=
  let a := haversine lat1 lon1 lat2 lon2 in
  6371 * (2 * Math.Ratan2 (sqrt a) (sqrt (1 - a))).

Definition bearingDegrees (lat1 lon1 lat2 lon2 : R) : R :=
  let y := sin (rad (lon2 - lon1)) * cos (rad lat2) in
  let x := cos (rad lat1) * sin (rad lat2) -
           sin (rad lat1) * cos (rad lat2) * cos (rad (lon2 - lon1)) in
  Math.Ratan2 y x * 180 / PI.

(** Strict equality [x === y] of two numbers: [NaN] equals nothing. *)
Definition strictEq (x y : JS.num) : bool :=
  match x, y with
  | JS.Fin a, JS.Fin b => if Req_dec_T a b then true else false
  | JS.Inf s, JS.Inf t => Bool.eqb s t
  | _, _ => false
  end.

(** ** Auxiliary definitions of the proofs *)

(** [r] as the last digit after the digits [d] (little-endian). *)
Definition cons_digit (r : N) (d : Decimal.uint) : Decimal.uint :=
  match r with
  | 0%N => Decimal.D0 d | 1%N => Decimal.D1 d | 2%N => Decimal.D2 d
  | 3%N => Decimal.D3 d | 4%N => Decimal.D4 d | 5%N => Decimal.D5 d
  | 6%N => Decimal.D6 d | 7%N => Decimal.D7 d | 8%N => Decimal.D8 d
  | _ => Decimal.D9 d
  end.

(** ** [formatDistance], in the specification's words

    "If [km >= 1]: one decimal place plus km suffix.  Else: convert to
    meters, round to nearest integer, suffix m." *)

(** The integer nearest to [x], the larger one on a tie. *)
Definition nearest (x : R) : Z := Zfloor (x + / 2).

Definition one_decimal (x : R) : string :=
  let n := Z.to_N (nearest (x * 10)) in
  (Str.decimal_digits (n / 10) ++ "." ++ Str.decimal_digits (n mod 10))%string.

Definition integer_text (x : R) : string :=
  if Rlt_dec x 0
  then ("-" ++ Str.decimal_digits (Z.to_N (nearest (- x))))%string
  else Str.decimal_digits (Z.to_N (nearest x)).

Definition shownDistance (km : R) : string :=
  if Rle_dec 1 km then (one_decimal km ++ "km")%string
  else (integer_text (km * 1000) ++ "m")%string.

(** The store-side reading of a result entry. *)
Definition storePoint (s : Store) : LatLng :=
  {| lat := Str.parseFloat (or_else (latitude s) "0");
     lng := Str.parseFloat (or_else (longitude s) "0") |}.

Definition distanceTo (u p : LatLng) : JS.num :=
  calculateDistance (lat u) (lng u) (lat p) (lng p).

(** A store with the given coordinates texts, the other fields empty. *)
Definition store_at (i : Z) (label : string) (latitude longitude : option string)
  : Store :=
  {| id := i; name := label; address := ""; latitude := latitude;
     longitude := longitude; phone := ""; description := None; ownerId := i;
     isActive := true; website := None; logo := None; rating := None;
     totalReviews := None; googleMapsLink := None |}.

(** The two stores of the failing input: one 556 m east of the user, one
    111.2 km east, given in this order. *)
Definition nearStore : Store :=
  store_at 1 "near" (Some "0"%string) (Some "0.005"%string).
Definition farStore : Store :=
  store_at 2 "far" (Some "0"%string) (Some "1"%string).

(** [a] and [b] have finite keys, and the key of [a] is at most that of
    [b]. *)
Definition key_le {A : Type} (key : A -> JS.num) (a b : A) : Prop :=
  exists ka kb : R, key a = JS.Fin ka /\ key b = JS.Fin kb /\ ka <= kb.

Definition finite_key {A : Type} (key : A -> JS.num) (a : A) : Prop :=
  exists k : R, key a = JS.Fin k.

(** [Number.isFinite]. *)
Definition isFinite (x : JS.num) : bool :=
  match x with JS.Fin _ => true | _ => false end.

(** The four coordinates that an entry is computed from are finite. *)
Definition finite_pair (u p : LatLng) : bool :=
  isFinite (lat u) && isFinite (lng u) && isFinite (lat p) && isFinite (lng p).

(** What every state that the components reach satisfies. *)
Definition settled (c : Component.Running) : Prop :=
  (Component.pending c <= 1)%nat /\
  (Component.loading (Component.state c) = true <-> Component.pending c = 1%nat) /\
  (Component.loading (Component.state c) = true ->
   Component.error (Component.state c) = None) /\
  (Component.error (Component.state c) = None \/
   Component.error (Component.state c) = Some Component.unable) /\
  (forall u, Component.userLocation (Component.state c) = Some u ->
     exists link text,
       UserLocation.googleMapsLink u = Some link /\
       UserLocation.coordinates u = Some text).

(** With no location and no error shown, a request is under way. *)
Definition asked (c : Component.Running) : Prop :=
  Component.userLocation (Component.state c) = None ->
  Component.error (Component.state c) = None ->
  Component.loading (Component.state c) = true.

(** [e] is the entry that the callback of [stores.map] builds when the
    distance computed for its store is [d e], whatever the direction. *)
Definition shows (ex : R -> string) (d : NearbyStore -> PrimFloat.float)
           (e : NearbyStore) : Prop :=
  exists direction,
    Binary64.entry ex (store e) (storeLocation e) (d e) direction = Ok e.


Definition onEquator (i : Z) (longitude : string) : Store :=
  store_at i "on the equator" (Some "0"%string) (Some longitude).



Definition entry_near (i : Z) : NearbyStore :=
  {| store := onEquator i "0.005";
     storeLocation := {| lat := 0; lng := 0.005 |};
     distance := "556m (E)" |}.

Definition entry_far (i : Z) : NearbyStore :=
  {| store := onEquator i "1";
     storeLocation := {| lat := 0; lng := 1 |};
     distance := "111.2km (E)" |}.

(** * Properties *)

(** ** Arithmetic on finite values *)

Section FiniteArithmetic.
Import JS.

Lemma sub_fin (a b : R) : (Fin a - Fin b)%js = Fin (a - b).
Proof. reflexivity. Qed.

Lemma div_fin (a b : R) : b <> 0 -> (Fin a / Fin b)%js = Fin (a / b).
Proof.
  intros Hb. unfold div. destruct (Req_dec_T b 0) as [E | _]; [contradiction | reflexivity].
Qed.

Lemma sqrt_fin (r : R) : 0 <= r -> Math.sqrt (Fin r) = Fin (sqrt r).
Proof.
  intros Hr. unfold Math.sqrt. destruct (Rlt_dec r 0) as [L | _]; [lra | reflexivity].
Qed.

Lemma ge_fin_true (a b : R) : b <= a -> (Fin a >= Fin b)%js = true.
Proof. intros H. unfold ge. destruct (Rle_dec b a); [reflexivity | contradiction]. Qed.

Lemma ge_fin_false (a b : R) : a < b -> (Fin a >= Fin b)%js = false.
Proof. intros H. unfold ge. destruct (Rle_dec b a); [lra | reflexivity]. Qed.

Lemma is_neg_false (r : R) : 0 <= r -> is_neg r = false.
Proof. intros H. unfold is_neg. destruct (Rlt_dec r 0); [lra | reflexivity]. Qed.

Lemma is_neg_true (r : R) : r < 0 -> is_neg r = true.
Proof. intros H. unfold is_neg. destruct (Rlt_dec r 0); [reflexivity | lra]. Qed.

Lemma positive_fin_true (r : R) : 0 < r -> positive (Fin r) = true.
Proof. intros H. unfold positive. destruct (Rlt_dec 0 r); [reflexivity | lra]. Qed.

Lemma positive_fin_false (r : R) : r <= 0 -> positive (Fin r) = false.
Proof. intros H. unfold positive. destruct (Rlt_dec 0 r); [lra | reflexivity]. Qed.


End FiniteArithmetic.

(** ** The haversine term lies in [[0, 1]] *)

Lemma Rsqr_sin_le_1 (x : R) : 0 <= sin x * sin x <= 1.
Proof.
  pose proof (sin2_cos2 x) as H. unfold Rsqr in H.
  pose proof (Rle_0_sqr (sin x)) as Hs. pose proof (Rle_0_sqr (cos x)) as Hc.
  unfold Rsqr in Hs, Hc. lra.
Qed.

(** The two extreme values of the term, as the longitude gap varies. *)
Lemma haversine_extreme (u v : R) :
  sin (v - u) * sin (v - u) + cos (2 * u) * cos (2 * v) =
  cos (u + v) * cos (u + v).
Proof.
  rewrite sin_minus, cos_plus, !cos_2a.
  ring.
Qed.

Lemma haversine_range (lat1 lon1 lat2 lon2 : R) :
  0 <= haversine lat1 lon1 lat2 lon2 <= 1.
Proof.
  unfold haversine.
  set (s := sin (rad (lon2 - lon1) / 2) * sin (rad (lon2 - lon1) / 2)).
  assert (Hs : 0 <= s <= 1) by apply Rsqr_sin_le_1.
  pose proof (haversine_extreme (rad lat1 / 2) (rad lat2 / 2)) as E.
  replace (rad lat2 / 2 - rad lat1 / 2) with (rad (lat2 - lat1) / 2) in E
    by (unfold rad; field).
  replace (2 * (rad lat1 / 2)) with (rad lat1) in E by field.
  replace (2 * (rad lat2 / 2)) with (rad lat2) in E by field.
  set (p := sin (rad (lat2 - lat1) / 2) * sin (rad (lat2 - lat1) / 2)) in *.
  assert (Hp : 0 <= p <= 1) by apply Rsqr_sin_le_1.
  set (q := cos (rad lat1 / 2 + rad lat2 / 2) * cos (rad lat1 / 2 + rad lat2 / 2)) in *.
  assert (Hq : 0 <= q <= 1).
  { pose proof (sin2_cos2 (rad lat1 / 2 + rad lat2 / 2)) as H. unfold Rsqr in H.
    pose proof (Rle_0_sqr (sin (rad lat1 / 2 + rad lat2 / 2))) as H1.
    pose proof (Rle_0_sqr (cos (rad lat1 / 2 + rad lat2 / 2))) as H2.
    unfold Rsqr in H1, H2. subst q. lra. }
  set (c := cos (rad lat1) * cos (rad lat2)) in *.
  replace (p + c * sin (rad (lon2 - lon1) / 2) * sin (rad (lon2 - lon1) / 2))
    with ((1 - s) * p + s * q) by (subst s; rewrite <- E; ring).
  split; nra.
Qed.

(** ** [calculateDistance] and [bearing] on finite coordinates *)

Lemma rad_fin (d : R) : (JS.Fin d * Math.PI / 180)%js = JS.Fin (rad d).
Proof. unfold Math.PI. simpl JS.mul. rewrite div_fin by lra. reflexivity. Qed.

Lemma calculateDistance_finite (lat1 lon1 lat2 lon2 : R) :
  calculateDistance lat1 lon1 lat2 lon2 = JS.Fin (distanceKm lat1 lon1 lat2 lon2).
Proof.
  unfold calculateDistance, distanceKm.
  pose proof (haversine_range lat1 lon1 lat2 lon2) as Ha.
  rewrite !sub_fin, !rad_fin, !div_fin by lra.
  cbn [Math.sin Math.cos JS.mul JS.add].
  fold (haversine lat1 lon1 lat2 lon2).
  rewrite sub_fin, !sqrt_fin by lra.
  reflexivity.
Qed.

Lemma bearing_finite (lat1 lon1 lat2 lon2 : R) :
  bearing lat1 lon1 lat2 lon2 = JS.Fin (bearingDegrees lat1 lon1 lat2 lon2).
Proof.
  unfold bearing, bearingDegrees.
  rewrite !sub_fin, !rad_fin.
  cbn [Math.sin Math.cos JS.mul JS.add Math.atan2].
  rewrite !sub_fin. cbn [Math.atan2 JS.mul]. unfold Math.PI.
  rewrite div_fin by (pose proof PI_RGT_0; lra).
  reflexivity.
Qed.

(** ** The angle function *)

Lemma atan_nonneg (t : R) : 0 <= t -> 0 <= atan t.
Proof.
  intros [Ht | <-].
  - left. rewrite <- atan_0. now apply atan_increasing.
  - rewrite atan_0. lra.
Qed.

Lemma Ratan2_first_quadrant (y x : R) :
  0 <= y -> 0 <= x -> 0 <= Math.Ratan2 y x <= PI / 2.
Proof.
  intros Hy Hx. unfold Math.Ratan2. pose proof PI_RGT_0 as Hpi.
  destruct (Rlt_dec 0 x) as [Px | Nx].
  - split.
    + apply atan_nonneg. apply Rmult_le_pos; [assumption | left; now apply Rinv_0_lt_compat].
    + left. apply atan_bound.
  - destruct (Rlt_dec x 0); [lra | ].
    destruct (Rlt_dec 0 y); [lra | ].
    destruct (Rlt_dec y 0); lra.
Qed.

Lemma Ratan2_0_1 : Math.Ratan2 0 1 = 0.
Proof.
  unfold Math.Ratan2. destruct (Rlt_dec 0 1); [ | lra].
  replace (0 / 1) with 0 by field. apply atan_0.
Qed.

(** On the vertical axis. *)
Lemma Ratan2_up (y : R) : 0 < y -> Math.Ratan2 y 0 = PI / 2.
Proof.
  intros Hy. unfold Math.Ratan2.
  destruct (Rlt_dec 0 0); [lra | ]. destruct (Rlt_dec 0 y); [reflexivity | lra].
Qed.

Lemma Ratan2_down (y : R) : y < 0 -> Math.Ratan2 y 0 = - (PI / 2).
Proof.
  intros Hy. unfold Math.Ratan2.
  destruct (Rlt_dec 0 0); [lra | ]. destruct (Rlt_dec 0 y); [lra | ].
  destruct (Rlt_dec y 0); [reflexivity | lra].
Qed.

(** ** C2, C4: the compass bucket *)

Lemma round_fin (r : R) (z : Z) :
  IZR z - / 2 <= r < IZR z + / 2 -> Math.round (JS.Fin r) = JS.Fin (IZR z).
Proof.
  intros H. unfold Math.round. do 2 f_equal. apply Zfloor_eq. lra.
Qed.

Lemma Ztrunc_small (q : R) : -1 < q < 1 -> JS.Ztrunc q = 0%Z.
Proof.
  intros H. unfold JS.Ztrunc. destruct (Rlt_dec q 0).
  - apply Zceil_eq. simpl. lra.
  - apply Zfloor_eq. simpl. lra.
Qed.

(** A dividend smaller than the divisor is its own remainder, sign
    included. *)
Lemma rem_fin_small (a b : R) :
  0 < b -> - b < a < b -> (JS.Fin a mod JS.Fin b)%js = JS.Fin a.
Proof.
  intros Hb Ha. unfold JS.rem. destruct (Req_dec_T b 0); [lra | ].
  rewrite Ztrunc_small.
  - f_equal. simpl. ring.
  - split.
    + apply Rmult_lt_reg_r with b; [assumption | ]. unfold Rdiv.
      rewrite Rmult_assoc, Rinv_l by lra. lra.
    + apply Rmult_lt_reg_r with b; [assumption | ]. unfold Rdiv.
      rewrite Rmult_assoc, Rinv_l by lra. lra.
Qed.

Lemma get_fin_int {A : Type} (a : list A) (z : Z) :
  Arr.get a (JS.Fin (IZR z)) =
  if (0 <=? z)%Z then nth_error a (Z.to_nat z) else None.
Proof.
  unfold Arr.get. rewrite ZfloorZ.
  destruct (Req_dec_T (IZR z) (IZR z)); [reflexivity | contradiction].
Qed.

Lemma Ratan2_range (y x : R) : - PI < Math.Ratan2 y x <= PI.
Proof.
  unfold Math.Ratan2. pose proof PI_RGT_0 as Hpi.
  pose proof (atan_bound (y / x)) as Hb.
  destruct (Rlt_dec 0 x) as [Px | Nx]; [lra | ].
  destruct (Rlt_dec x 0) as [Lx | Zx].
  - destruct (Rlt_dec y 0) as [Ly | Ny].
    + assert (0 < y / x).
      { replace (y / x) with ((- y) * / (- x)) by (field; lra).
        apply Rmult_lt_0_compat; [lra | apply Rinv_0_lt_compat; lra]. }
      pose proof (atan_increasing 0 (y / x) H) as Hi. rewrite atan_0 in Hi. lra.
    + assert (y / x <= 0).
      { replace (y / x) with (- (y * / (- x))) by (field; lra).
        assert (0 <= y * / (- x)); [ | lra].
        apply Rmult_le_pos; [lra | left; apply Rinv_0_lt_compat; lra]. }
      assert (atan (y / x) <= 0).
      { destruct H as [H | H].
        - left. rewrite <- atan_0. now apply atan_increasing.
        - rewrite H, atan_0. lra. }
      lra.
  - destruct (Rlt_dec 0 y); [lra | ]. destruct (Rlt_dec y 0); lra.
Qed.

Lemma bearingDegrees_range (lat1 lon1 lat2 lon2 : R) :
  -180 < bearingDegrees lat1 lon1 lat2 lon2 <= 180.
Proof.
  unfold bearingDegrees. cbv zeta.
  match goal with |- _ < Math.Ratan2 ?y ?x * _ / _ <= _ =>
    pose proof (Ratan2_range y x) as H; set (t := Math.Ratan2 y x) in * end.
  pose proof PI_RGT_0 as Hpi.
  assert (E : t * 180 / PI = 180 * (t / PI)) by (field; lra).
  assert (-1 < t / PI <= 1).
  { split.
    - apply Rmult_lt_reg_r with PI; [assumption | ].
      unfold Rdiv. rewrite Rmult_assoc, Rinv_l by lra. lra.
    - apply Rmult_le_reg_r with PI; [assumption | ].
      unfold Rdiv. rewrite Rmult_assoc, Rinv_l by lra. lra. }
  lra.
Qed.

(** The index is the bearing's nearest multiple of 45 degrees, between
    [-4] and [4]: it is never brought into [0 .. 7]. *)
Lemma directionIndex_finite (lat1 lon1 lat2 lon2 : R) :
  let z := Zfloor (bearingDegrees lat1 lon1 lat2 lon2 / 45 + / 2) in
  directionIndex lat1 lon1 lat2 lon2 = JS.Fin (IZR z) /\ (-4 <= z <= 4)%Z.
Proof.
  intros z. unfold directionIndex.
  rewrite bearing_finite, div_fin by lra.
  pose proof (bearingDegrees_range lat1 lon1 lat2 lon2) as Hb.
  pose proof (Zfloor_bound (bearingDegrees lat1 lon1 lat2 lon2 / 45 + / 2)) as Hz.
  fold z in Hz.
  assert (Hz4 : (-4 <= z <= 4)%Z).
  { split.
    - apply Zfloor_lub. simpl. lra.
    - apply Z.lt_succ_r. apply lt_IZR. simpl. lra. }
  split; [ | exact Hz4].
  rewrite (round_fin _ z) by lra.
  apply rem_fin_small; [lra | ].
  destruct Hz4 as [L U]. apply IZR_le in L, U. simpl in L, U. lra.
Qed.

Lemma bearingDegrees_due_west : bearingDegrees 0 0 0 (-1) = -90.
Proof.
  unfold bearingDegrees, rad. cbv zeta.
  replace (0 * PI / 180) with 0 by field.
  rewrite sin_0, cos_0.
  replace (1 * 0 - 0 * 1 * cos ((-1 - 0) * PI / 180)) with 0 by ring.
  rewrite Ratan2_down.
  - field. pose proof PI_RGT_0. lra.
  - replace ((-1 - 0) * PI / 180) with (- (PI / 180)) by field.
    rewrite sin_neg. pose proof PI_RGT_0 as Hpi.
    assert (0 < sin (PI / 180)) by (apply sin_gt_0; lra).
    lra.
Qed.

Lemma directionIndex_due_west : directionIndex 0 0 0 (-1) = JS.Fin (-2).
Proof.
  destruct (directionIndex_finite 0 0 0 (-1)) as [E _]. rewrite E.
  do 2 f_equal. rewrite bearingDegrees_due_west. apply Zfloor_eq. simpl. lra.
Qed.

(** C2.  From [(0, 0)] to [(0, -1)], due west, the bearing the code
    computes is [-90] degrees, not [270]: the index is [-2] and the lookup
    in [directions] gives [undefined], not ["W"]. *)
Theorem calculateDirection_due_west_undefined :
  bearing 0 0 0 (-1) = JS.Fin (-90) /\
  calculateDirection 0 0 0 (-1) = None.
Proof.
  split.
  - now rewrite bearing_finite, bearingDegrees_due_west.
  - unfold calculateDirection. rewrite directionIndex_due_west.
    apply (get_fin_int directions (-2)).
Qed.

(** ** [formatDistance] on exact values *)

(** *** Texts *)

Section Texts.
Local Open Scope string_scope.

Lemma append_assoc (a b c : string) : (a ++ b) ++ c = a ++ (b ++ c).
Proof. induction a as [ | x a IH]; simpl; [reflexivity | now rewrite IH]. Qed.

Lemma append_length (a b : string) :
  String.length (a ++ b) = (String.length a + String.length b)%nat.
Proof. induction a as [ | x a IH]; simpl; [reflexivity | now rewrite IH]. Qed.

Lemma substring_all (a : string) : substring 0 (String.length a) a = a.
Proof. induction a as [ | x a IH]; simpl; [reflexivity | now rewrite IH]. Qed.

Lemma substring_prefix (a b : string) :
  substring 0 (String.length a) (a ++ b) = a.
Proof.
  induction a as [ | x a IH]; simpl.
  - destruct b; reflexivity.
  - now rewrite IH.
Qed.

Lemma substring_suffix (a b : string) :
  substring (String.length a) (String.length b) (a ++ b) = b.
Proof.
  induction a as [ | x a IH]; simpl; [apply substring_all | exact IH].
Qed.

End Texts.

(** *** Decimal digits of [10 * q + r] *)

(** A property of the ten digits is checked digit by digit. *)
Lemma digit_cases (P : N -> Prop) :
  (forall k : nat, (k < 10)%nat -> P (N.of_nat k)) ->
  forall r : N, (r < 10)%N -> P r.
Proof.
  intros H r Hr. rewrite <- (N2Nat.id r). apply H. lia.
Qed.

Ltac each_digit_by r Hr tac :=
  revert r Hr;
  match goal with |- forall r, _ -> @?P r => apply (digit_cases P) end;
  intros k Hk; do 10 (destruct k as [ | k]; [tac | ]); lia.

Ltac each_digit r Hr := each_digit_by r Hr reflexivity.

Section DecimalDigits.
Import Decimal.
Local Open Scope N_scope.

Lemma to_lu_iter_succ (n : N) (k : nat) :
  DecimalPos.Unsigned.to_lu (Nat.iter k N.succ n) =
  Nat.iter k Little.succ (DecimalPos.Unsigned.to_lu n).
Proof.
  induction k as [ | k IH]; [reflexivity | ].
  cbn [Nat.iter nat_rect]. fold (Nat.iter k N.succ n).
  rewrite DecimalPos.Unsigned.to_lu_succ, IH. reflexivity.
Qed.

Lemma add_iter_succ (n r : N) : n + r = Nat.iter (N.to_nat r) N.succ n.
Proof.
  rewrite <- (N2Nat.id r) at 1. generalize (N.to_nat r). intros k.
  induction k as [ | k IH]; [exact (N.add_0_r n) | ].
  rewrite Nat2N.inj_succ, N.add_succ_r, IH. reflexivity.
Qed.

Lemma to_lu_tenfold_plus (p : positive) (r : N) :
  r < 10 ->
  DecimalPos.Unsigned.to_lu (10 * Npos p + r) =
  cons_digit r (DecimalPos.Unsigned.to_lu (Npos p)).
Proof.
  intros Hr.
  rewrite add_iter_succ, to_lu_iter_succ, DecimalPos.Unsigned.to_ldec_tenfold.
  generalize (DecimalPos.Unsigned.to_lu (N.pos p)). intros d.
  each_digit r Hr.
Qed.

Lemma to_uint_rev_to_lu (n : N) :
  N.to_uint n = rev (DecimalPos.Unsigned.to_lu n).
Proof. destruct n; reflexivity. Qed.

Lemma string_of_revapp (l acc : uint) :
  NilEmpty.string_of_uint (revapp l acc) =
  (NilEmpty.string_of_uint (rev l) ++ NilEmpty.string_of_uint acc)%string.
Proof.
  revert acc. unfold rev.
  induction l; intros acc; simpl;
    try (rewrite IHl; symmetry; rewrite IHl, append_assoc; reflexivity).
  reflexivity.
Qed.

Lemma decimal_digits_nil_empty (n : N) :
  Str.decimal_digits n = NilEmpty.string_of_uint (N.to_uint n).
Proof.
  unfold Str.decimal_digits, NilZero.string_of_uint.
  destruct n as [ | p]; [reflexivity | ]. simpl N.to_uint.
  pose proof (DecimalPos.Unsigned.to_uint_nonnil p) as H.
  destruct (Pos.to_uint p); [contradiction | reflexivity ..].
Qed.

Lemma string_of_rev_cons_digit (r : N) (d : uint) :
  r < 10 ->
  NilEmpty.string_of_uint (rev (cons_digit r d)) =
  (NilEmpty.string_of_uint (rev d) ++
   NilEmpty.string_of_uint (N.to_uint r))%string.
Proof.
  intros Hr.
  each_digit_by r Hr
    ltac:(cbn [N.of_nat Pos.of_succ_nat Pos.succ cons_digit];
          unfold rev at 1; cbn [revapp]; rewrite string_of_revapp; reflexivity).
Qed.

Lemma decimal_digits_step (q r : N) :
  0 < q -> r < 10 ->
  Str.decimal_digits (10 * q + r) =
  (Str.decimal_digits q ++ Str.decimal_digits r)%string.
Proof.
  intros Hq Hr. destruct q as [ | p]; [lia | ].
  rewrite !decimal_digits_nil_empty, (to_uint_rev_to_lu (10 * N.pos p + r)),
    to_lu_tenfold_plus, (to_uint_rev_to_lu (N.pos p)) by assumption.
  now apply string_of_rev_cons_digit.
Qed.

Lemma decimal_digits_one (r : N) :
  r < 10 -> String.length (Str.decimal_digits r) = 1%nat.
Proof. intros Hr. each_digit r Hr. Qed.

Lemma decimal_digits_nonempty (n : N) :
  (1 <= String.length (Str.decimal_digits n))%nat.
Proof.
  rewrite decimal_digits_nil_empty. destruct n as [ | p]; [simpl; lia | ].
  simpl N.to_uint. pose proof (DecimalPos.Unsigned.to_uint_nonnil p) as H.
  destruct (Pos.to_uint p); [contradiction | simpl; lia ..].
Qed.

End DecimalDigits.

(** *** [toFixed] with zero or one fraction digit *)

Lemma fixed_notation_0 (n : N) : fixed_notation n 0 = Str.decimal_digits n.
Proof. reflexivity. Qed.

Lemma fixed_notation_1 (n : N) :
  fixed_notation n 1 =
  (Str.decimal_digits (n / 10) ++ "." ++ Str.decimal_digits (n mod 10))%string.
Proof.
  destruct (N.ltb_spec n 10) as [Hlt | Hge].
  - each_digit n Hlt.
  - pose proof (N.div_mod' n 10) as E.
    assert (Hq : (0 < n / 10)%N).
    { apply N.div_str_pos. lia. }
    assert (Hr : (n mod 10 < 10)%N) by (apply N.mod_lt; lia).
    set (q := (n / 10)%N) in *. set (r := (n mod 10)%N) in *.
    clearbody q r. subst n. unfold fixed_notation.
    rewrite decimal_digits_step by assumption.
    pose proof (decimal_digits_one r Hr) as L1.
    pose proof (decimal_digits_nonempty q) as Lq.
    assert (Lm : String.length (Str.decimal_digits q ++ Str.decimal_digits r) =
                 (String.length (Str.decimal_digits q) + 1)%nat)
      by (now rewrite append_length, L1).
    unfold pad_start. rewrite Lm.
    replace (2 - (String.length (Str.decimal_digits q) + 1))%nat with 0%nat by lia.
    cbn [repeat string_of_list_ascii append]. rewrite Lm.
    replace (String.length (Str.decimal_digits q) + 1 - 1)%nat
      with (String.length (Str.decimal_digits q)) by lia.
    pose proof (substring_suffix (Str.decimal_digits q) (Str.decimal_digits r)) as Hs.
    rewrite L1 in Hs. rewrite substring_prefix, Hs.
    reflexivity.
Qed.

Lemma toFixed_nonneg (ex : R -> string) (r : R) (f : Z) :
  (0 <= f <= 100)%Z -> 0 <= r < 10 ^ 21 ->
  toFixed ex (JS.Fin r) f =
  Ok (fixed_notation (Z.to_N (nearest (r * 10 ^ Z.to_nat f))) (Z.to_nat f)).
Proof.
  intros Hf Hr. unfold toFixed.
  replace ((f <? 0)%Z || (100 <? f)%Z) with false
    by (symmetry; apply orb_false_iff; split; apply Z.ltb_ge; lia).
  rewrite is_neg_false, Rabs_pos_eq by lra.
  destruct (Rle_dec (10 ^ 21) r); [lra | reflexivity].
Qed.

Lemma toFixed_neg (ex : R -> string) (r : R) (f : Z) :
  (0 <= f <= 100)%Z -> - 10 ^ 21 < r < 0 ->
  toFixed ex (JS.Fin r) f =
  Ok ("-" ++ fixed_notation (Z.to_N (nearest (- r * 10 ^ Z.to_nat f))) (Z.to_nat f))%string.
Proof.
  intros Hf Hr. unfold toFixed.
  replace ((f <? 0)%Z || (100 <? f)%Z) with false
    by (symmetry; apply orb_false_iff; split; apply Z.ltb_ge; lia).
  rewrite is_neg_true, Rabs_left by lra.
  destruct (Rle_dec (10 ^ 21) (- r)); [lra | reflexivity].
Qed.

Lemma formatDistance_shown (ex : R -> string) (km : R) :
  - 10 ^ 18 < km < 10 ^ 21 ->
  formatDistance ex (JS.Fin km) = Ok (shownDistance km).
Proof.
  intros Hkm. unfold formatDistance, shownDistance.
  destruct (Rle_dec 1 km) as [Hge | Hlt].
  - rewrite ge_fin_true by assumption.
    rewrite toFixed_nonneg by (try lia; lra).
    cbn [bind]. rewrite fixed_notation_1.
    replace (km * 10 ^ Z.to_nat 1) with (km * 10) by (simpl; ring).
    reflexivity.
  - rewrite ge_fin_false by lra.
    cbn [JS.mul]. unfold integer_text.
    assert (P21 : 10 ^ 21 = 10 ^ 18 * 1000) by (simpl; ring).
    destruct (Rlt_dec (km * 1000) 0) as [Hneg | Hpos].
    + rewrite toFixed_neg by (try lia; lra).
      cbn [bind]. rewrite fixed_notation_0.
      replace (- (km * 1000) * 10 ^ Z.to_nat 0) with (- (km * 1000)) by (simpl; ring).
      reflexivity.
    + rewrite toFixed_nonneg by (try lia; lra).
      cbn [bind]. rewrite fixed_notation_0.
      replace (km * 1000 * 10 ^ Z.to_nat 0) with (km * 1000) by (simpl; ring).
      reflexivity.
Qed.

Lemma nearest_eq (x : R) (z : Z) :
  IZR z - / 2 <= x < IZR z + / 2 -> nearest x = z.
Proof. intros H. apply Zfloor_eq. lra. Qed.

(** [nearest x] is an integer closest to [x]. *)
Lemma nearest_closest (x : R) (z : Z) :
  Rabs (IZR (nearest x) - x) <= / 2 /\
  Rabs (IZR (nearest x) - x) <= Rabs (IZR z - x).
Proof.
  unfold nearest. pose proof (Zfloor_bound (x + / 2)) as Hb.
  set (n := Zfloor (x + / 2)) in *.
  assert (H2 : Rabs (IZR n - x) <= / 2) by (apply Rabs_le; lra).
  split; [exact H2 | ].
  destruct (Z.eq_dec z n) as [-> | Hne]; [lra | ].
  assert (Hz : (z <= n - 1 \/ n + 1 <= z)%Z) by lia.
  destruct Hz as [Hz | Hz]; apply IZR_le in Hz.
  - rewrite minus_IZR in Hz. simpl in Hz.
    rewrite (Rabs_left1 (IZR z - x)) by lra. lra.
  - rewrite plus_IZR in Hz. simpl in Hz.
    rewrite (Rabs_right (IZR z - x)) by lra. lra.
Qed.

(** ** The sort *)

Section SortFacts.
Context {A : Type} (comparefn : A -> A -> JS.num).

Lemma insert_perm (x : A) (l : list A) :
  Permutation (Arr.insert comparefn x l) (x :: l).
Proof.
  induction l as [ | y l IH]; simpl; [reflexivity | ].
  destruct (JS.positive (comparefn x y)); [ | reflexivity].
  rewrite IH. apply perm_swap.
Qed.

Lemma sort_perm (l : list A) :
  Permutation (Arr.sort comparefn l) l.
Proof.
  induction l as [ | x l IH]; simpl; [reflexivity | ].
  rewrite insert_perm. now constructor.
Qed.

Lemma sort_In (x : A) (l : list A) : In x (Arr.sort comparefn l) <-> In x l.
Proof.
  split; apply Permutation_in;
    [ | symmetry ]; apply sort_perm.
Qed.

Lemma sort_length (l : list A) :
  List.length (Arr.sort comparefn l) = List.length l.
Proof. apply Permutation_length, sort_perm. Qed.

(** Elements that the comparator never ranks one above the other keep
    their order: inserting does not carry [x] past any of them. *)
Variable keep : A -> bool.


End SortFacts.

(** ** [getNearbyStores] never throws *)

Lemma toFixed_ok (ex : R -> string) (x : JS.num) (f : Z) :
  (0 <= f <= 100)%Z -> exists s, toFixed ex x f = Ok s.
Proof.
  intros Hf. unfold toFixed.
  replace ((f <? 0)%Z || (100 <? f)%Z) with false
    by (symmetry; apply orb_false_iff; split; apply Z.ltb_ge; lia).
  destruct x as [ | s | r]; [eexists; reflexivity .. | ].
  destruct (Rle_dec (10 ^ 21) (Rabs r)); eexists; reflexivity.
Qed.

Lemma formatDistance_ok (ex : R -> string) (d : JS.num) :
  exists s, formatDistance ex d = Ok s.
Proof.
  unfold formatDistance. destruct (d >= 1)%js.
  - destruct (toFixed_ok ex d 1) as [s ->]; [lia | ]. eexists; reflexivity.
  - destruct (toFixed_ok ex (d * 1000)%js 0) as [s ->]; [lia | ].
    eexists; reflexivity.
Qed.

(** The entry of one store: its coordinates read with [parseFloat], and the
    text that [formatDistance] and [calculateDirection] give. *)
Lemma annotate_ok (ex : R -> string) (u : LatLng) (s : Store) :
  exists shown,
    formatDistance ex
      (calculateDistance (lat u) (lng u)
         (Str.parseFloat (or_else (latitude s) "0"))
         (Str.parseFloat (or_else (longitude s) "0"))) = Ok shown /\
    annotate ex u s =
    Ok {| store := s;
          storeLocation :=
            {| lat := Str.parseFloat (or_else (latitude s) "0");
               lng := Str.parseFloat (or_else (longitude s) "0") |};
          distance :=
            (shown ++ " (" ++
             Str.to_text
               (calculateDirection (lat u) (lng u)
                  (Str.parseFloat (or_else (latitude s) "0"))
                  (Str.parseFloat (or_else (longitude s) "0"))) ++ ")")%string |}.
Proof.
  unfold annotate. cbn [lat lng].
  destruct (formatDistance_ok ex
              (calculateDistance (lat u) (lng u)
                 (Str.parseFloat (or_else (latitude s) "0"))
                 (Str.parseFloat (or_else (longitude s) "0")))) as [shown E].
  exists shown. rewrite E. split; reflexivity.
Qed.

Lemma mapM_annotate_ok (ex : R -> string) (u : LatLng) (stores : list Store) :
  exists annotated,
    mapM (annotate ex u) stores = Ok annotated /\
    Forall2 (fun s e => annotate ex u s = Ok e) stores annotated.
Proof.
  induction stores as [ | s stores [annotated [E F]]].
  - exists []. split; [reflexivity | constructor].
  - destruct (annotate_ok ex u s) as [shown [_ Es]].
    eexists. cbn [mapM]. rewrite Es, E. cbn [bind].
    split; [reflexivity | ]. constructor; assumption.
Qed.

Lemma annotate_store (ex : R -> string) (u : LatLng) (s : Store) (e : NearbyStore) :
  annotate ex u s = Ok e ->
  store e = s /\
  storeLocation e =
    {| lat := Str.parseFloat (or_else (latitude s) "0");
       lng := Str.parseFloat (or_else (longitude s) "0") |}.
Proof.
  destruct (annotate_ok ex u s) as [shown [_ E]]. rewrite E.
  intros [= <-]. split; reflexivity.
Qed.

Lemma annotated_stores (ex : R -> string) (u : LatLng)
      (stores : list Store) (annotated : list NearbyStore) :
  Forall2 (fun s e => annotate ex u s = Ok e) stores annotated ->
  map store annotated = stores.
Proof.
  induction 1 as [ | s e stores annotated Hse _ IH]; [reflexivity | ].
  cbn [map]. rewrite IH. f_equal. now apply (annotate_store ex u s e).
Qed.

(** C10.  While no user location has been acquired ([userLocation] is
    [null]) [getNearbyStores] returns the empty list, whatever the
    candidate stores are. *)
Theorem getNearbyStores_no_location (ex : R -> string) (stores : list Store) :
  getNearbyStores ex None stores = Ok [].
Proof. reflexivity. Qed.

Lemma getNearbyStores_sorted_annotated
      (ex : R -> string) (u : LatLng) (stores : list Store) :
  exists annotated,
    Forall2 (fun s e => annotate ex u s = Ok e) stores annotated /\
    getNearbyStores ex (Some u) stores =
    Ok (Arr.sort compareByShown annotated).
Proof.
  destruct (mapM_annotate_ok ex u stores) as [annotated [E F]].
  exists annotated. split; [assumption | ].
  unfold getNearbyStores. rewrite E. reflexivity.
Qed.

Lemma get_in {A : Type} (a : list A) (i : JS.num) (x : A) :
  Arr.get a i = Some x -> In x a.
Proof.
  unfold Arr.get. destruct i as [ | | r]; try discriminate.
  destruct (Req_dec_T r (IZR (Zfloor r))); [ | discriminate].
  destruct (0 <=? Zfloor r)%Z; [ | discriminate].
  apply nth_error_In.
Qed.

(** C4, as the code has it.  [getNearbyStores] returns for every user
    location and every list of stores, whatever their coordinates are
    ([NaN], infinite or out of range included), without throwing: with a
    location, the result holds exactly the stores given, one entry each; and
    what [calculateDirection] returns, when it is not [undefined], is one of
    the eight directions. *)
Theorem getNearbyStores_total
        (ex : R -> string) (userLocation : option LatLng) (stores : list Store) :
  (exists result,
     getNearbyStores ex userLocation stores = Ok result /\
     match userLocation with
     | None => result = []
     | Some _ => Permutation (map store result) stores
     end) /\
  (forall (lat1 lon1 lat2 lon2 : JS.num) (d : string),
     calculateDirection lat1 lon1 lat2 lon2 = Some d -> In d directions).
Proof.
  split.
  - destruct userLocation as [u | ].
    + destruct (getNearbyStores_sorted_annotated ex u stores)
        as [annotated [F E]].
      eexists. split; [exact E | ].
      rewrite (sort_perm compareByShown annotated).
      now rewrite (annotated_stores ex u stores annotated F).
    + exists []. split; reflexivity.
  - intros lat1 lon1 lat2 lon2 d. apply get_in.
Qed.

(** C4, the counterexample: the index computed in [calculateDirection] is
    not always within the bounds [0 .. 7] of [directions].  With a [NaN]
    latitude it is [NaN]; from [(0, 0)] to [(0, -1)] it is [-2]. *)
Lemma directionIndex_out_of_bounds :
  directionIndex 0 0 JS.NaN 0 = JS.NaN /\
  (exists i : Z,
     directionIndex 0 0 0 (-1) = JS.Fin (IZR i) /\ ~ (0 <= i < 8)%Z).
Proof.
  split.
  - unfold directionIndex, bearing. rewrite !sub_fin, !rad_fin. reflexivity.
  - exists (-2)%Z. split; [exact directionIndex_due_west | lia].
Qed.

(** ** C3: coordinates that are missing, empty or not a number *)

Lemma parseFloat_zero : Str.parseFloat "0" = JS.Fin 0.
Proof.
  unfold Str.parseFloat. replace (Str.parse_literal "0")
    with (Some (Str.LitDecimal false 0 0)) by reflexivity.
  unfold Str.literal_value. f_equal. simpl. ring.
Qed.








(** ** The number read at the head of a text *)



Lemma Forall2_In_r {A B : Type} (P : A -> B -> Prop) (l : list A) (l' : list B) (y : B) :
  Forall2 P l l' -> In y l' -> exists x, In x l /\ P x y.
Proof.
  induction 1 as [ | a b l l' Hab _ IH]; [contradiction | ].
  intros [<- | Hy].
  - exists a. split; [now left | assumption].
  - destruct (IH Hy) as [x [Hx Hp]]. exists x. split; [now right | assumption].
Qed.

(** ** C1: the order of the result *)

Lemma PI_bounds : 31415 / 10000 < PI < 31416 / 10000.
Proof.
  generalize (PI_2_3_7_ineq 2).
  unfold PI_2_3_7_tg, tg_alt, Ratan_seq. simpl sum_f_R0.
  cbn [Nat.mul Nat.add INR pow].
  intros [H1 H2].
  split; lra.
Qed.

(** Along the equator, eastwards: the distance is the arc, the bearing is
    90 degrees. *)
Lemma distanceKm_equator (lon : R) :
  0 <= lon < 180 -> distanceKm 0 0 0 lon = 6371 * rad lon.
Proof.
  intros Hlon. pose proof PI_RGT_0 as Hpi.
  assert (Hh : 0 <= rad lon / 2 < PI / 2).
  { unfold rad. split.
    - apply Rmult_le_pos; [ | lra].
      apply Rmult_le_pos; [ | lra]. apply Rmult_le_pos; lra.
    - assert (lon * PI < 180 * PI) by (apply Rmult_lt_compat_r; lra). lra. }
  set (h := rad lon / 2) in *.
  assert (Ha : haversine 0 0 0 lon = sin h * sin h).
  { unfold haversine.
    replace (rad (0 - 0) / 2) with 0 by (unfold rad; field).
    replace (rad 0) with 0 by (unfold rad; field).
    replace (rad (lon - 0) / 2) with h by (unfold h, rad; field).
    rewrite sin_0, cos_0. ring. }
  unfold distanceKm. rewrite Ha.
  assert (Hs : 0 <= sin h) by (apply sin_ge_0; lra).
  assert (Hc : 0 < cos h) by (apply cos_gt_0; lra).
  rewrite (sqrt_square (sin h)) by assumption.
  replace (1 - sin h * sin h) with (cos h * cos h)
    by (pose proof (sin2_cos2 h) as H; unfold Rsqr in H; lra).
  rewrite (sqrt_square (cos h)) by lra.
  unfold Math.Ratan2. destruct (Rlt_dec 0 (cos h)); [ | contradiction].
  fold (tan h). rewrite atan_tan by lra.
  unfold h. field.
Qed.

Lemma bearingDegrees_due_east (lon : R) :
  0 < lon < 180 -> bearingDegrees 0 0 0 lon = 90.
Proof.
  intros Hlon. pose proof PI_RGT_0 as Hpi.
  unfold bearingDegrees. cbv zeta.
  replace (rad 0) with 0 by (unfold rad; field).
  rewrite sin_0, cos_0.
  replace (1 * 0 - 0 * 1 * cos (rad (lon - 0))) with 0 by ring.
  rewrite Ratan2_up; [field; lra | ].
  assert (0 < sin (rad (lon - 0))); [ | lra].
  apply sin_gt_0; unfold rad.
  - apply Rmult_lt_0_compat; [ | lra]. apply Rmult_lt_0_compat; lra.
  - assert ((lon - 0) * PI < 180 * PI) by (apply Rmult_lt_compat_r; lra). lra.
Qed.

Lemma calculateDirection_due_east (lon : R) :
  0 < lon < 180 -> calculateDirection 0 0 0 lon = Some "E"%string.
Proof.
  intros Hlon. unfold calculateDirection.
  destruct (directionIndex_finite 0 0 0 lon) as [E _]. rewrite E.
  rewrite (bearingDegrees_due_east lon Hlon).
  replace (Zfloor (90 / 45 + / 2)) with 2%Z
    by (symmetry; apply Zfloor_eq; simpl; lra).
  apply (get_fin_int directions 2).
Qed.

Lemma parseFloat_decimal (text : string) (negative : bool) (m : N) (e : Z) (r : R) :
  Str.parse_literal text = Some (Str.LitDecimal negative m e) ->
  (if negative then -1 else 1) * IZR (Z.of_N m) * powerRZ 10 e = r ->
  Str.parseFloat text = JS.Fin r.
Proof. intros E <-. unfold Str.parseFloat. now rewrite E. Qed.

Lemma annotate_nearStore (ex : R -> string) :
  annotate ex {| lat := 0; lng := 0 |} nearStore =
  Ok {| store := nearStore;
        storeLocation := {| lat := 0; lng := 0.005 |};
        distance := "556m (E)" |}.
Proof.
  unfold annotate. cbn [latitude longitude nearStore store_at or_else lat lng].
  rewrite parseFloat_zero.
  rewrite (parseFloat_decimal "0.005" false 5 (-3) 0.005)
    by (try reflexivity; simpl; lra).
  rewrite calculateDistance_finite, calculateDirection_due_east by lra.
  rewrite distanceKm_equator by lra.
  pose proof PI_bounds as Hpi.
  assert (P18 : 0 < 10 ^ 18) by (apply pow_lt; lra).
  assert (P21 : 10 ^ 21 = 10 ^ 18 * 1000) by (simpl; ring).
  rewrite formatDistance_shown by (unfold rad; lra).
  unfold shownDistance, integer_text, rad.
  destruct (Rle_dec 1 (6371 * (0.005 * PI / 180))) as [H | _]; [lra | ].
  destruct (Rlt_dec (6371 * (0.005 * PI / 180) * 1000) 0) as [H | _]; [lra | ].
  rewrite (nearest_eq _ 556) by lra.
  reflexivity.
Qed.

Lemma annotate_farStore (ex : R -> string) :
  annotate ex {| lat := 0; lng := 0 |} farStore =
  Ok {| store := farStore;
        storeLocation := {| lat := 0; lng := 1 |};
        distance := "111.2km (E)" |}.
Proof.
  unfold annotate. cbn [latitude longitude farStore store_at or_else lat lng].
  rewrite parseFloat_zero.
  rewrite (parseFloat_decimal "1" false 1 0 1)
    by (try reflexivity; simpl; lra).
  rewrite calculateDistance_finite, calculateDirection_due_east by lra.
  rewrite distanceKm_equator by lra.
  pose proof PI_bounds as Hpi.
  assert (P18 : 0 < 10 ^ 18) by (apply pow_lt; lra).
  assert (P21 : 10 ^ 21 = 10 ^ 18 * 1000) by (simpl; ring).
  rewrite formatDistance_shown by (unfold rad; lra).
  unfold shownDistance, one_decimal, rad.
  destruct (Rle_dec 1 (6371 * (1 * PI / 180))) as [_ | H]; [ | lra].
  rewrite (nearest_eq _ 1112) by lra.
  reflexivity.
Qed.

(** C1, on a failing input.  The user is at [(0, 0)]; the store given first
    is 556 m away, the second 111.2 km away.  [getNearbyStores] returns the
    farther store first: the comparator reads 556 and 111.2 in the texts
    "556m (E)" and "111.2km (E)" and compares them regardless of the
    unit. *)
Theorem getNearbyStores_farther_first (ex : R -> string) :
  getNearbyStores ex (Some {| lat := 0; lng := 0 |}) [nearStore; farStore] =
  Ok [ {| store := farStore;
          storeLocation := {| lat := 0; lng := 1 |};
          distance := "111.2km (E)" |};
       {| store := nearStore;
          storeLocation := {| lat := 0; lng := 0.005 |};
          distance := "556m (E)" |} ] /\
  (exists dNear dFar : R,
     calculateDistance 0 0 0 0.005 = JS.Fin dNear /\
     calculateDistance 0 0 0 1 = JS.Fin dFar /\
     dNear < 1 /\ 111 < dFar).
Proof.
  split.
  - unfold getNearbyStores. cbn [mapM].
    rewrite annotate_nearStore, annotate_farStore. cbn [bind Arr.sort Arr.insert].
    unfold compareByShown, sortKey. cbn [distance].
    replace (Str.split " " "556m (E)") with ["556m"; "(E)"]%string by reflexivity.
    replace (Str.split " " "111.2km (E)") with ["111.2km"; "(E)"]%string by reflexivity.
    rewrite !(get_fin_int _ 0). cbn [Z.leb Z.compare Z.to_nat nth_error Str.to_text].
    rewrite (parseFloat_decimal "556m" false 556 0 556)
      by (try reflexivity; simpl; lra).
    rewrite (parseFloat_decimal "111.2km" false 1112 (-1) 111.2)
      by (try reflexivity; simpl; lra).
    rewrite sub_fin, positive_fin_true by lra.
    reflexivity.
  - pose proof PI_bounds as Hpi.
    exists (6371 * rad 0.005), (6371 * rad 1).
    rewrite !calculateDistance_finite, !distanceKm_equator by lra.
    unfold rad. repeat split; lra.
Qed.

(** ** C8: Kathmandu to Biratnagar *)

Lemma sin_poly_bounds (x : R) : 0 <= x <= 1 -> x - x ^ 3 / 6 <= sin x <= x.
Proof.
  intros Hx.
  destruct (pre_sin_bound x 0) as [L U]; [lra | lra | ].
  unfold sin_approx, sin_term in L, U. simpl in L, U.
  split; [lra | ].
  assert (0 <= x * x * x) by (repeat apply Rmult_le_pos; lra).
  assert (x * x <= 1) by nra.
  nra.
Qed.

Lemma cos_poly_bounds (x : R) :
  0 <= x <= 1 -> 1 - x ^ 2 / 2 <= cos x <= 1 - x ^ 2 / 2 + x ^ 4 / 24.
Proof.
  intros Hx.
  destruct (pre_cos_bound x 0) as [L U]; [lra | lra | ].
  unfold cos_approx, cos_term in L, U. simpl in L, U.
  split; lra.
Qed.

Lemma atan_upper (t u : R) :
  0 < u <= 1 -> t <= u - u ^ 3 / 6 -> atan t <= u.
Proof.
  intros Hu Ht.
  pose proof PI2_1 as Hpi.
  destruct (sin_poly_bounds u) as [Ls _]; [lra | ].
  assert (Hc : 0 < cos u <= 1).
  { split; [apply cos_gt_0; lra | ]. pose proof (COS_bound u). lra. }
  assert (Hs : 0 <= sin u) by (apply sin_ge_0; lra).
  assert (Htan : sin u <= tan u).
  { unfold tan. apply Rmult_le_reg_r with (cos u); [lra | ].
    unfold Rdiv. rewrite Rmult_assoc, Rinv_l by lra. nra. }
  rewrite <- (atan_tan u) by lra.
  destruct (Rle_lt_or_eq_dec t (tan u)) as [Hlt | ->]; [lra | | lra].
  left. now apply atan_increasing.
Qed.

Lemma atan_lower (t u : R) :
  0 <= u <= 1 -> u <= t * (1 - u ^ 2 / 2) -> u <= atan t.
Proof.
  intros Hu Ht.
  pose proof PI2_1 as Hpi.
  destruct (sin_poly_bounds u) as [_ Us]; [lra | ].
  destruct (cos_poly_bounds u) as [Lc _]; [lra | ].
  assert (Hc : 0 < cos u) by (apply cos_gt_0; lra).
  assert (Hp : 0 < 1 - u ^ 2 / 2) by nra.
  assert (Ht0 : 0 <= t) by nra.
  assert (Htan : tan u <= t).
  { unfold tan. apply Rmult_le_reg_r with (cos u); [lra | ].
    unfold Rdiv. rewrite Rmult_assoc, Rinv_l by lra. nra. }
  rewrite <- (atan_tan u) at 1 by lra.
  destruct (Rle_lt_or_eq_dec (tan u) t Htan) as [Hlt | ->]; [ | lra].
  left. now apply atan_increasing.
Qed.

(** The angle of a haversine term strictly between 0 and 1, enclosed by
    comparing its tangent with the tangents of [lo] and [hi]. *)
Lemma Ratan2_sqrt_bounds (a lo hi : R) :
  0 < a < 1 -> 0 <= lo <= 1 -> 0 < hi <= 1 ->
  (lo / (1 - lo ^ 2 / 2)) ^ 2 * (1 - a) <= a ->
  a <= (hi - hi ^ 3 / 6) ^ 2 * (1 - a) ->
  0 <= hi - hi ^ 3 / 6 ->
  lo <= Math.Ratan2 (sqrt a) (sqrt (1 - a)) <= hi.
Proof.
  intros Ha Hlo Hhi HL HU Hv.
  assert (Hq : 0 < sqrt (1 - a)) by (apply sqrt_lt_R0; lra).
  assert (Hp : 0 < sqrt a) by (apply sqrt_lt_R0; lra).
  unfold Math.Ratan2. destruct (Rlt_dec 0 (sqrt (1 - a))); [ | contradiction].
  assert (Hd : 0 < 1 - lo ^ 2 / 2) by nra.
  split.
  - apply atan_lower; [assumption | ].
    set (w := lo / (1 - lo ^ 2 / 2)) in *.
    assert (Hw : 0 <= w).
    { unfold w. apply Rmult_le_pos; [lra | left; now apply Rinv_0_lt_compat]. }
    assert (Hwt : w <= sqrt a / sqrt (1 - a)).
    { apply Rmult_le_reg_r with (sqrt (1 - a)); [assumption | ].
      unfold Rdiv. rewrite Rmult_assoc, Rinv_l, Rmult_1_r by lra.
      rewrite <- (sqrt_square w) by assumption.
      rewrite <- sqrt_mult by (try lra; nra).
      apply sqrt_le_1; nra. }
    replace lo with (w * (1 - lo ^ 2 / 2)) at 1 by (unfold w; field; lra).
    apply Rmult_le_compat_r; lra.
  - apply atan_upper; [assumption | ].
    set (v := hi - hi ^ 3 / 6) in *.
    apply Rmult_le_reg_r with (sqrt (1 - a)); [assumption | ].
    unfold Rdiv. rewrite Rmult_assoc, Rinv_l, Rmult_1_r by lra.
    rewrite <- (sqrt_square v) by assumption.
    rewrite <- sqrt_mult by (try lra; nra).
    apply sqrt_le_1; nra.
Qed.

Lemma pow_bounds (x lo hi : R) (n : nat) :
  0 <= lo -> lo <= x <= hi -> lo ^ n <= x ^ n <= hi ^ n.
Proof. intros H0 [L U]. split; apply pow_incr; lra. Qed.

Lemma sin_interval (x lo hi : R) :
  0 <= lo -> hi <= 1 -> lo <= x <= hi ->
  lo - hi ^ 3 / 6 <= sin x <= hi.
Proof.
  intros H0 H1 Hx.
  destruct (sin_poly_bounds x) as [L U]; [lra | ].
  destruct (pow_bounds x lo hi 3 H0 Hx) as [_ P]. lra.
Qed.

Lemma cos_interval (x lo hi : R) :
  0 <= lo -> hi <= 1 -> lo <= x <= hi ->
  1 - hi ^ 2 / 2 <= cos x <= 1 - lo ^ 2 / 2 + hi ^ 4 / 24.
Proof.
  intros H0 H1 Hx.
  destruct (cos_poly_bounds x) as [L U]; [lra | ].
  destruct (pow_bounds x lo hi 2 H0 Hx) as [P2 Q2].
  destruct (pow_bounds x lo hi 4 H0 Hx) as [_ Q4]. lra.
Qed.

Lemma sqr_interval (s lo hi : R) :
  0 <= lo -> lo <= s <= hi -> lo * lo <= s * s <= hi * hi.
Proof. intros H0 Hs. split; apply Rmult_le_compat; lra. Qed.

Lemma mult_interval (x y xl xu yl yu : R) :
  0 <= xl -> 0 <= yl -> xl <= x <= xu -> yl <= y <= yu ->
  xl * yl <= x * y <= xu * yu.
Proof. intros Hx0 Hy0 Hx Hy. split; apply Rmult_le_compat; lra. Qed.

Lemma haversine_Kathmandu_Biratnagar :
  344 / 1000000 <= haversine 27.7058 85.3292 26.4672 87.2744 <= 3453 / 10000000.
Proof.
  pose proof PI_bounds as Hpi.
  unfold haversine, rad.
  replace ((26.4672 - 27.7058) * PI / 180 / 2) with (- (1.2386 * PI / 360)) by lra.
  replace ((87.2744 - 85.3292) * PI / 180 / 2) with (1.9452 * PI / 360) by lra.
  rewrite sin_neg.
  destruct (sin_interval (1.2386 * PI / 360) 0.0108085 0.0108089) as [L1 U1];
    [lra | lra | lra | ].
  destruct (sin_interval (1.9452 * PI / 360) 0.0169745 0.0169752) as [L2 U2];
    [lra | lra | lra | ].
  destruct (cos_interval (27.7058 * PI / 180) 0.48354 0.48356) as [Lc1 Uc1];
    [lra | lra | lra | ].
  destruct (cos_interval (26.4672 * PI / 180) 0.46192 0.46195) as [Lc2 Uc2];
    [lra | lra | lra | ].
  set (s1 := sin (1.2386 * PI / 360)) in *.
  set (s2 := sin (1.9452 * PI / 360)) in *.
  set (c1 := cos (27.7058 * PI / 180)) in *.
  set (c2 := cos (26.4672 * PI / 180)) in *.
  destruct (sqr_interval s1 0.0108082 0.0108089) as [Lp Up]; [lra | lra | ].
  destruct (sqr_interval s2 0.0169736 0.0169752) as [Lq Uq]; [lra | lra | ].
  destruct (mult_interval c1 c2 0.88308 0.88538 0.8933 0.89522) as [Lc Uc];
    [lra | lra | lra | lra | ].
  destruct (mult_interval (c1 * c2) (s2 * s2)
              (0.88308 * 0.8933) (0.88538 * 0.89522)
              (0.0169736 * 0.0169736) (0.0169752 * 0.0169752)) as [Lm Um];
    [lra | lra | lra | lra | ].
  replace (- s1 * - s1 + c1 * c2 * s2 * s2) with (s1 * s1 + c1 * c2 * (s2 * s2)) by ring.
  lra.
Qed.

Lemma distanceKm_Kathmandu_Biratnagar :
  236 <= distanceKm 27.7058 85.3292 26.4672 87.2744 <= 238.
Proof.
  pose proof haversine_Kathmandu_Biratnagar as Ha.
  unfold distanceKm. cbv zeta.
  set (a := haversine 27.7058 85.3292 26.4672 87.2744) in *.
  destruct (Ratan2_sqrt_bounds a (236 / 12742) (238 / 12742)) as [L U];
    try lra.
Qed.

(** C8, as the code has it.  From Kathmandu (27.7058, 85.3292) to
    Biratnagar (26.4672, 87.2744) [calculateDistance] gives a value within
    5 km of 237 km. *)
Theorem calculateDistance_Kathmandu_Biratnagar :
  exists d : R,
    calculateDistance 27.7058 85.3292 26.4672 87.2744 = JS.Fin d /\
    232 <= d <= 242.
Proof.
  exists (distanceKm 27.7058 85.3292 26.4672 87.2744).
  split; [apply calculateDistance_finite | ].
  pose proof distanceKm_Kathmandu_Biratnagar. lra.
Qed.

(** C8, the counterexample: that value is below 238 km, so it is not in
    [[278, 288]]. *)
Lemma calculateDistance_Kathmandu_Biratnagar_not_283 :
  exists d : R,
    calculateDistance 27.7058 85.3292 26.4672 87.2744 = JS.Fin d /\
    d <= 238 /\ ~ (278 <= d <= 288).
Proof.
  exists (distanceKm 27.7058 85.3292 26.4672 87.2744).
  split; [apply calculateDistance_finite | ].
  pose proof distanceKm_Kathmandu_Biratnagar. split; lra.
Qed.

(** ** C5, C6: the distance between antipodal points *)

Section Antipodes.
Import PrimFloat.
Local Open Scope float_scope.

(** The haversine term of [(14.7, 0)] and [(-14.7, 180)], with the values
    that [Math.sin] and [Math.cos] take there: it is
    [1.0000000000000002], above [1]. *)
Lemma haversine_term_above_1 :
  let s := 0x1.03d91f645e206p-2 in
  let c := 0x1.ef3db8094bad0p-1 in
  let a := (- s) * (- s) + c * c * 1 * 1 in
  a = 0x1.0000000000001p+0 /\ is_nan (sqrt (1 - a)) = true.
Proof. split; reflexivity. Qed.

(** C6, on a failing input.  From [(14.7, 0)] to [(-14.7, 180)], its
    antipode, [calculateDistance] is [NaN] in binary64, and [NaN >= 0] is
    false.  The halves [dLat / 2] and [dLon / 2] are [-0.2565634000431664]
    and [1.5707963267948966] (the binary64 [pi / 2]), the latitudes in
    radians [0.2565634000431664] and its opposite.  The hypotheses give
    [Math.sin] and [Math.cos] there their correctly rounded values:
    [sin(0.2565634000431664) = 0.2537579445848056],
    [cos(0.2565634000431664) = 0.9672677527758768] and [sin(pi / 2) = 1].
    The term [a] is then [1.0000000000000002] and [Math.sqrt(1 - a)] is
    [NaN]. *)
Theorem calculateDistance_antipodes_NaN
        (sin cos : float -> float) (atan2 : float -> float -> float) :
  sin (-0x1.06b88e5224d3fp-2) = -0x1.03d91f645e206p-2 ->
  cos 0x1.06b88e5224d3fp-2 = 0x1.ef3db8094bad0p-1 ->
  cos (-0x1.06b88e5224d3fp-2) = 0x1.ef3db8094bad0p-1 ->
  sin 0x1.921fb54442d18p+0 = 1 ->
  let d := Binary64.calculateDistance sin cos atan2
             0x1.d666666666666p+3 0 (-0x1.d666666666666p+3) 180 in
  Binary64.value d = JS.NaN /\ JS.ge (Binary64.value d) 0%R = false.
Proof.
  intros Hs Hc1 Hc2 Hh d.
  assert (E : d = nan).
  { unfold d, Binary64.calculateDistance. vm_compute.
    rewrite Hs, Hc1, Hc2, Hh. vm_compute. reflexivity. }
  rewrite E. split; reflexivity.
Qed.

Lemma calculateDistance_antipodes_NaN_witness :
  let d := Binary64.calculateDistance Fdlibm.sin Fdlibm.cos (fun _ _ => 0)
             0x1.d666666666666p+3 0 (-0x1.d666666666666p+3) 180 in
  Binary64.value d = JS.NaN /\ JS.ge (Binary64.value d) 0%R = false.
Proof.
  apply calculateDistance_antipodes_NaN; vm_compute; reflexivity.
Defined.

(** C5, on a failing input.  From [(14.7, 0)] to [(-14.7, 180)] and back:
    both distances are [NaN] in binary64, for the reason given under C6, and
    [NaN === NaN] is false. *)
Theorem calculateDistance_antipodes_not_equal
        (sin cos : float -> float) (atan2 : float -> float -> float) :
  sin 0x1.06b88e5224d3fp-2 = 0x1.03d91f645e206p-2 ->
  sin (-0x1.06b88e5224d3fp-2) = -0x1.03d91f645e206p-2 ->
  cos 0x1.06b88e5224d3fp-2 = 0x1.ef3db8094bad0p-1 ->
  cos (-0x1.06b88e5224d3fp-2) = 0x1.ef3db8094bad0p-1 ->
  sin 0x1.921fb54442d18p+0 = 1 ->
  sin (-0x1.921fb54442d18p+0) = -1 ->
  let there := Binary64.calculateDistance sin cos atan2
                 0x1.d666666666666p+3 0 (-0x1.d666666666666p+3) 180 in
  let back := Binary64.calculateDistance sin cos atan2
                (-0x1.d666666666666p+3) 180 0x1.d666666666666p+3 0 in
  Binary64.value there = JS.NaN /\ Binary64.value back = JS.NaN /\
  strictEq (Binary64.value there) (Binary64.value back) = false /\
  (there =? back) = false.
Proof.
  intros Hs1 Hs2 Hc1 Hc2 Hh1 Hh2 there back.
  assert (E : there = nan).
  { unfold there, Binary64.calculateDistance. vm_compute.
    rewrite Hs2, Hc1, Hc2, Hh1. vm_compute. reflexivity. }
  assert (E' : back = nan).
  { unfold back, Binary64.calculateDistance. vm_compute.
    rewrite Hs1, Hc1, Hc2, Hh2. vm_compute. reflexivity. }
  rewrite E, E'. repeat split; reflexivity.
Qed.

Lemma calculateDistance_antipodes_not_equal_witness :
  let there := Binary64.calculateDistance Fdlibm.sin Fdlibm.cos (fun _ _ => 0)
                 0x1.d666666666666p+3 0 (-0x1.d666666666666p+3) 180 in
  let back := Binary64.calculateDistance Fdlibm.sin Fdlibm.cos (fun _ _ => 0)
                (-0x1.d666666666666p+3) 180 0x1.d666666666666p+3 0 in
  Binary64.value there = JS.NaN /\ Binary64.value back = JS.NaN /\
  strictEq (Binary64.value there) (Binary64.value back) = false /\
  (there =? back) = false.
Proof.
  apply calculateDistance_antipodes_not_equal; vm_compute; reflexivity.
Defined.

End Antipodes.

(** ** The distance from a point to itself, in binary64 *)

Section SamePoint.
Import PrimFloat SpecFloat FloatOps FloatAxioms.
Local Open Scope float_scope.

(** A finite value is a zero or has a mantissa. *)
Lemma is_finite_cases (x : float) :
  is_finite x = true ->
  (exists s, Prim2SF x = S754_zero s) \/
  (exists s m e, Prim2SF x = S754_finite s m e).
Proof.
  unfold is_finite, is_nan, is_infinity.
  rewrite !eqb_spec, abs_spec.
  destruct (Prim2SF x) as [s | s | | s m e] eqn:E.
  - intros _. left. now exists s.
  - cbn. now destruct s.
  - cbn. discriminate.
  - intros _. right. now exists s, m, e.
Qed.

Lemma sub_self (x : float) : is_finite x = true -> x - x = 0.
Proof.
  intros H. apply Prim2SF_inj. rewrite sub_spec.
  destruct (is_finite_cases x H) as [[s ->] | [s [m [e ->]]]].
  - now destruct s.
  - unfold SF64sub, SFsub. rewrite Z.sub_diag. reflexivity.
Qed.

Lemma mul_zero_r (x : float) :
  is_finite x = true -> exists s, Prim2SF (x * 0) = S754_zero s.
Proof.
  intros H. rewrite mul_spec.
  destruct (is_finite_cases x H) as [[s ->] | [s [m [e ->]]]];
    eexists; reflexivity.
Qed.

Lemma zero_mul_zero (z : float) (s : bool) :
  Prim2SF z = S754_zero s -> exists t, Prim2SF (z * 0) = S754_zero t.
Proof. intros H. rewrite mul_spec, H. eexists; reflexivity. Qed.

Lemma zero_add_zero (z : float) (s : bool) :
  Prim2SF z = S754_zero s -> 0 + z = 0.
Proof.
  intros H. apply Prim2SF_inj. rewrite add_spec, H. now destruct s.
Qed.

(** X19.  From a point to itself the distance is [+0] in binary64, for
    every finite latitude and longitude: the two differences are [+0], the
    haversine term is [+0] and so is the result.  [Math.sin(0)] is [0] and
    [Math.atan2(0, 1)] is [0], as ECMAScript prescribes; the cosine of the
    latitude in radians is taken to be a number whose square is finite. *)
Theorem calculateDistance_same_point
        (sin cos : float -> float) (atan2 : float -> float -> float)
        (lat lon : float) :
  is_finite lat = true -> is_finite lon = true ->
  sin 0 = 0 -> atan2 0 1 = 0 ->
  is_finite (cos (lat * Binary64.PI / 180) * cos (lat * Binary64.PI / 180)) = true ->
  Binary64.calculateDistance sin cos atan2 lat lon lat lon = 0.
Proof.
  intros Hlat Hlon Hsin Hatan Hcos.
  unfold Binary64.calculateDistance. cbv zeta.
  rewrite (sub_self lat Hlat), (sub_self lon Hlon).
  change (0 * Binary64.PI / 180 / 2) with 0. rewrite Hsin.
  destruct (mul_zero_r _ Hcos) as [s Hs].
  destruct (zero_mul_zero _ s Hs) as [t Ht].
  change (0 * 0) with 0.
  rewrite (zero_add_zero _ t Ht).
  change (sqrt 0) with 0. change (sqrt (1 - 0)) with 1.
  unfold Binary64.Math_atan2. change (is_nan 0 || is_nan 1)%bool with false.
  cbv iota. rewrite Hatan. reflexivity.
Qed.

Lemma calculateDistance_same_point_witness :
  Binary64.calculateDistance Fdlibm.sin Fdlibm.cos (fun y _ => y)
    0x1.d666666666666p+3 180 0x1.d666666666666p+3 180 = 0.
Proof.
  apply calculateDistance_same_point; vm_compute; reflexivity.
Defined.

End SamePoint.

(** ** C7: [formatDistance] in binary64 *)

Lemma powerRZ_2_neg (p : positive) : powerRZ 2 (Zneg p) = / IZR (2 ^ Zpos p).
Proof. unfold powerRZ. now rewrite pow_IZR, positive_nat_Z. Qed.

Lemma powerRZ_2_pos (p : positive) : powerRZ 2 (Zpos p) = IZR (2 ^ Zpos p).
Proof. unfold powerRZ. now rewrite pow_IZR, positive_nat_Z. Qed.

(** The number that a given binary64 value stands for. *)
Ltac float_value :=
  unfold Binary64.value;
  repeat match goal with
         | |- context [FloatOps.Prim2SF ?x] =>
             let t := eval vm_compute in (FloatOps.Prim2SF x) in
             change (FloatOps.Prim2SF x) with t
         end;
  cbv beta iota.

Ltac float_real :=
  rewrite ?powerRZ_2_neg, ?powerRZ_2_pos;
  repeat match goal with
         | |- context [IZR (2 ^ Zpos ?p)] =>
             let v := eval vm_compute in (2 ^ Zpos p)%Z in
             change (2 ^ Zpos p)%Z with v
         end;
  lra.

Lemma thousand_below_exponent : 1000 < 10 ^ 21.
Proof.
  apply Rlt_le_trans with (10 ^ 4); [simpl; lra | ].
  apply Rle_pow; [lra | lia].
Qed.

Section Examples.
Import PrimFloat.
Local Open Scope float_scope.

Lemma formatDistance_kilometres (ex : R -> string) (km : float) (r : R) :
  Binary64.value km = JS.Fin r -> (1 <= r < 10 ^ 21)%R ->
  Binary64.formatDistance ex km = Ok (one_decimal r ++ "km")%string.
Proof.
  intros Hv Hr. unfold Binary64.formatDistance. rewrite Hv.
  rewrite ge_fin_true by lra.
  rewrite toFixed_nonneg by (try lia; lra).
  cbn [bind]. rewrite fixed_notation_1.
  replace (r * 10 ^ Z.to_nat 1)%R with (r * 10)%R by (simpl; ring).
  reflexivity.
Qed.

Lemma formatDistance_below_1 (ex : R -> string) (km : float) (r m : R) :
  Binary64.value km = JS.Fin r -> (r < 1)%R ->
  Binary64.value (km * 1000) = JS.Fin m -> (- 10 ^ 21 < m < 10 ^ 21)%R ->
  Binary64.formatDistance ex km = Ok (integer_text m ++ "m")%string.
Proof.
  intros Hv Hr Hm Hb. unfold Binary64.formatDistance. rewrite Hv.
  rewrite ge_fin_false by lra. rewrite Hm. unfold integer_text.
  destruct (Rlt_dec m 0) as [Hneg | Hpos].
  - rewrite toFixed_neg by (try lia; lra).
    cbn [bind]. rewrite fixed_notation_0.
    replace (- m * 10 ^ Z.to_nat 0)%R with (- m)%R by (simpl; ring).
    reflexivity.
  - rewrite toFixed_nonneg by (try lia; lra).
    cbn [bind]. rewrite fixed_notation_0.
    replace (m * 10 ^ Z.to_nat 0)%R with m by (simpl; ring).
    reflexivity.
Qed.

(** [0.35] is the binary64 value [0x1.6666666666666p-2], and
    [0.35 * 1000] is [350]. *)
Lemma formatDistance_350m (ex : R -> string) :
  Binary64.formatDistance ex 0x1.6666666666666p-2 = Ok "350m"%string.
Proof.
  pose proof thousand_below_exponent as P.
  rewrite (formatDistance_below_1 ex _
             (1 * IZR 6305039478318694 * powerRZ 2 (-54))%R 350%R).
  - unfold integer_text. destruct (Rlt_dec 350 0); [lra | ].
    rewrite (nearest_eq _ 350) by lra. reflexivity.
  - float_value. reflexivity.
  - float_real.
  - float_value. f_equal. float_real.
  - lra.
Qed.

(** [4.2] is the binary64 value [0x1.0cccccccccccdp+2]. *)
Lemma formatDistance_4_2km (ex : R -> string) :
  Binary64.formatDistance ex 0x1.0cccccccccccdp+2 = Ok "4.2km"%string.
Proof.
  pose proof thousand_below_exponent as P.
  rewrite (formatDistance_kilometres ex _
             (1 * IZR 4728779608739021 * powerRZ 2 (-50))%R).
  - unfold one_decimal. rewrite (nearest_eq _ 42) by float_real. reflexivity.
  - float_value. reflexivity.
  - float_real.
Qed.

Lemma formatDistance_1_0km (ex : R -> string) :
  Binary64.formatDistance ex 1 = Ok "1.0km"%string.
Proof.
  pose proof thousand_below_exponent as P.
  rewrite (formatDistance_kilometres ex _
             (1 * IZR 4503599627370496 * powerRZ 2 (-52))%R).
  - unfold one_decimal. rewrite (nearest_eq _ 10) by float_real. reflexivity.
  - float_value. reflexivity.
  - float_real.
Qed.

(** C7, as the code has it.  For a binary64 [km] from [1] up, below
    [10^21], [formatDistance] writes the tenths nearest to [km] (the larger
    on a tie), one digit after the point, followed by "km".  For [km] below
    [1] it writes the whole number nearest to the binary64 product
    [km * 1000] (half a metre goes away from zero), followed by "m", as long
    as this product is a number above [-10^21] (it is at most [1000]).  In
    particular [formatDistance(0.35)] is "350m", [formatDistance(4.2)] is
    "4.2km" and [formatDistance(1.0)] is "1.0km". *)
Theorem formatDistance_binary64 (ex : R -> string) :
  (forall (km : float) (r : R),
     Binary64.value km = JS.Fin r -> (1 <= r < 10 ^ 21)%R ->
     Binary64.formatDistance ex km = Ok (one_decimal r ++ "km")%string) /\
  (forall (km : float) (r m : R),
     Binary64.value km = JS.Fin r -> (r < 1)%R ->
     Binary64.value (km * 1000) = JS.Fin m -> (- 10 ^ 21 < m < 10 ^ 21)%R ->
     Binary64.formatDistance ex km = Ok (integer_text m ++ "m")%string) /\
  Binary64.formatDistance ex 0x1.6666666666666p-2 = Ok "350m"%string /\
  Binary64.formatDistance ex 0x1.0cccccccccccdp+2 = Ok "4.2km"%string /\
  Binary64.formatDistance ex 1 = Ok "1.0km"%string.
Proof.
  split; [exact (formatDistance_kilometres ex) | ].
  split; [exact (formatDistance_below_1 ex) | ].
  split; [apply formatDistance_350m | ].
  split; [apply formatDistance_4_2km | apply formatDistance_1_0km].
Qed.

Lemma formatDistance_binary64_witness :
  Binary64.formatDistance (fun _ => EmptyString) 20015 = Ok "20015.0km"%string.
Proof.
  pose proof thousand_below_exponent as P.
  rewrite (proj1 (formatDistance_binary64 (fun _ => EmptyString)) 20015
             (1 * IZR 5501681307484160 * powerRZ 2 (-38))%R).
  - unfold one_decimal. rewrite (nearest_eq _ 200150) by float_real. reflexivity.
  - float_value. reflexivity.
  - float_real.
Defined.

(** C7, the counterexample.  [formatDistance(Infinity)] is "Infinitykm" and
    [formatDistance(-Infinity)] is "-Infinitym"; from [10^21] on the digits
    are those of the exponent notation.  And the conversion to metres is the
    binary64 product: for the binary64 value [0.0045] (which is
    [0.00449999999999999966...]), a thousand times the value is below [4.5]
    and its nearest whole number is [4], but the product computed is [4.5]
    and the text is "5m". *)
Lemma formatDistance_Infinity_and_tie :
  (JS.ge (Binary64.value infinity) 1%R = true /\
   Binary64.formatDistance (fun _ => EmptyString) infinity =
   Ok "Infinitykm"%string) /\
  (JS.ge (Binary64.value neg_infinity) 1%R = false /\
   Binary64.formatDistance (fun _ => EmptyString) neg_infinity =
   Ok "-Infinitym"%string) /\
  (forall ex : R -> string,
     Binary64.value 0x1.b1ae4d6e2ef5p+69 = JS.Fin (10 ^ 21) /\
     Binary64.formatDistance ex 0x1.b1ae4d6e2ef5p+69 =
     Ok (ex (10 ^ 21)%R ++ "km")%string) /\
  (exists r : R,
     Binary64.value 0x1.26e978d4fdf3bp-8 = JS.Fin r /\ (r < 1)%R /\
     integer_text (r * 1000) = "4"%string /\
     Binary64.formatDistance (fun _ => EmptyString) 0x1.26e978d4fdf3bp-8 =
     Ok "5m"%string).
Proof.
  split; [split; reflexivity | ].
  split; [split; reflexivity | ].
  pose proof thousand_below_exponent as P.
  split.
  - intros ex.
    assert (E : Binary64.value 0x1.b1ae4d6e2ef5p+69 = JS.Fin (10 ^ 21)).
    { float_value. f_equal.
      replace (10 ^ 21)%R with (IZR (10 ^ 21))
        by (rewrite (pow_IZR 10 21); reflexivity).
      change (10 ^ 21)%Z with 1000000000000000000000%Z.
      float_real. }
    split; [exact E | ].
    unfold Binary64.formatDistance. rewrite E.
    rewrite ge_fin_true by lra.
    unfold toFixed. cbn [Z.ltb Z.compare orb].
    rewrite is_neg_false by lra. rewrite Rabs_pos_eq by lra.
    destruct (Rle_dec (10 ^ 21) (10 ^ 21)) as [_ | H]; [reflexivity | lra].
  - exists (1 * IZR 5188146770730811 * powerRZ 2 (-60))%R.
    split; [float_value; reflexivity | ].
    split; [float_real | ].
    split.
    + unfold integer_text.
      destruct (Rlt_dec (1 * IZR 5188146770730811 * powerRZ 2 (-60) * 1000)%R 0)
        as [Hneg | _]; [exfalso; revert Hneg; float_real | ].
      rewrite (nearest_eq _ 4) by float_real. reflexivity.
    + rewrite (formatDistance_below_1 _ _
                 (1 * IZR 5188146770730811 * powerRZ 2 (-60))%R (9 / 2)%R).
      * unfold integer_text. destruct (Rlt_dec (9 / 2)%R 0); [lra | ].
        rewrite (nearest_eq _ 5) by lra. reflexivity.
      * float_value. reflexivity.
      * float_real.
      * float_value. f_equal. float_real.
      * lra.
Qed.

End Examples.

(** ** C9: stores at the same distance *)

(** A comparator that subtracts finite keys is consistent. *)
Lemma consistent_finite_keys {A : Type} (key : A -> JS.num)
      (comparefn : A -> A -> JS.num) (l : list A) :
  (forall a b, comparefn a b = (key a - key b)%js) ->
  Forall (finite_key key) l -> Arr.consistent comparefn l.
Proof.
  intros comparefn_key Hl.
  assert (K : forall a, In a l -> exists k, key a = JS.Fin k).
  { intros a Ha. exact (proj1 (Forall_forall _ _) Hl a Ha). }
  unfold Arr.consistent, Arr.level, Arr.below, Arr.above.
  repeat split.
  - intros a b Ha Hb. destruct (K a Ha) as [ka Ea], (K b Hb) as [kb Eb].
    rewrite comparefn_key, Ea, Eb, sub_fin. discriminate.
  - intros a Ha. destruct (K a Ha) as [ka Ea].
    rewrite comparefn_key, Ea, sub_fin. f_equal. ring.
  - intros a b Ha Hb. destruct (K a Ha) as [ka Ea], (K b Hb) as [kb Eb].
    rewrite !comparefn_key, Ea, Eb, !sub_fin. intros [= H]. f_equal. lra.
  - intros a b c Ha Hb Hc.
    destruct (K a Ha) as [ka Ea], (K b Hb) as [kb Eb], (K c Hc) as [kc Ec].
    rewrite !comparefn_key, Ea, Eb, Ec, !sub_fin. intros [= H1] [= H2].
    f_equal. lra.
  - intros a b c Ha Hb Hc.
    destruct (K a Ha) as [ka Ea], (K b Hb) as [kb Eb], (K c Hc) as [kc Ec].
    rewrite !comparefn_key, Ea, Eb, Ec, !sub_fin. cbn [JS.negative].
    destruct (Rlt_dec (ka - kb) 0); [ | discriminate].
    destruct (Rlt_dec (kb - kc) 0); [ | discriminate].
    destruct (Rlt_dec (ka - kc) 0); [reflexivity | lra].
  - intros a b c Ha Hb Hc.
    destruct (K a Ha) as [ka Ea], (K b Hb) as [kb Eb], (K c Hc) as [kc Ec].
    rewrite !comparefn_key, Ea, Eb, Ec, !sub_fin. cbn [JS.positive].
    destruct (Rlt_dec 0 (ka - kb)); [ | discriminate].
    destruct (Rlt_dec 0 (kb - kc)); [ | discriminate].
    destruct (Rlt_dec 0 (ka - kc)); [reflexivity | lra].
Qed.

(** The result that [Arr.sort] computes is one that [Arr.sorts] allows. *)
Lemma sorts_sort {A : Type} (comparefn : A -> A -> JS.num) (l : list A) :
  Arr.sorts comparefn l (Arr.sort comparefn l).
Proof.
  split; [symmetry; apply sort_perm | reflexivity].
Qed.

Lemma getNearbyStores_returns_computed
      (ex : R -> string) (userLocation : option LatLng) (stores : list Store)
      (result : list NearbyStore) :
  getNearbyStores ex userLocation stores = Ok result ->
  getNearbyStores_returns ex userLocation stores result.
Proof.
  destruct userLocation as [u | ]; cbn.
  - destruct (mapM (annotate ex u) stores) as [annotated | e] eqn:E;
      cbn; [ | discriminate].
    intros [= <-]. exists annotated. split; [reflexivity | apply sorts_sort].
  - now intros [= <-].
Qed.

Section EqualDistances.
Import PrimFloat SpecFloat FloatOps FloatAxioms.




End EqualDistances.




Lemma sortKey_entry_near (i : Z) : sortKey (entry_near i) = JS.Fin 556.
Proof.
  unfold sortKey. cbn [distance entry_near].
  replace (Str.split " " "556m (E)") with ["556m"; "(E)"]%string by reflexivity.
  rewrite (get_fin_int _ 0). cbn [Z.leb Z.compare Z.to_nat nth_error Str.to_text].
  apply (parseFloat_decimal "556m" false 556 0 556); [reflexivity | simpl; lra].
Qed.

Lemma sortKey_entry_far (i : Z) : sortKey (entry_far i) = JS.Fin 111.2.
Proof.
  unfold sortKey. cbn [distance entry_far].
  replace (Str.split " " "111.2km (E)") with ["111.2km"; "(E)"]%string
    by reflexivity.
  rewrite (get_fin_int _ 0). cbn [Z.leb Z.compare Z.to_nat nth_error Str.to_text].
  apply (parseFloat_decimal "111.2km" false 1112 (-1) 111.2);
    [reflexivity | simpl; lra].
Qed.

Section Witness.
Import PrimFloat.
Local Open Scope float_scope.

(** [111.2] is the binary64 value [0x1.bcccccccccccdp+6]; two entries that
    show it. *)
Lemma formatDistance_111_2km (ex : R -> string) :
  Binary64.formatDistance ex 0x1.bcccccccccccdp+6 = Ok "111.2km"%string.
Proof.
  pose proof thousand_below_exponent as P.
  rewrite (formatDistance_kilometres ex _
             (1 * IZR 7825004352556237 * powerRZ 2 (-46))%R).
  - unfold one_decimal. rewrite (nearest_eq _ 1112) by float_real. reflexivity.
  - float_value. reflexivity.
  - float_real.
Qed.


End Witness.





(** ** What the code guarantees beyond the claims *)

(** ** Sorting by a finite key *)

Section SortByKey.
Context {A : Type} (key : A -> JS.num) (comparefn : A -> A -> JS.num).
Hypothesis comparefn_key : forall a b, comparefn a b = (key a - key b)%js.

Lemma insert_sorted (x : A) (l : list A) :
  finite_key key x -> Forall (finite_key key) l ->
  StronglySorted (key_le key) l ->
  StronglySorted (key_le key) (Arr.insert comparefn x l).
Proof.
  intros [kx Hx] Hl Hs. induction l as [ | y l IH]; cbn [Arr.insert].
  - repeat constructor.
  - apply Forall_cons_iff in Hl as [[ky Hy] Hl].
    apply StronglySorted_inv in Hs as [Hs Hy_le].
    rewrite comparefn_key, Hx, Hy, sub_fin.
    destruct (Rlt_dec 0 (kx - ky)) as [Hgt | Hle].
    + rewrite positive_fin_true by assumption.
      constructor; [now apply IH | ].
      refine (Permutation_Forall (Permutation_sym (insert_perm comparefn x l)) _).
      constructor; [ | assumption].
      exists ky, kx. repeat split; try assumption. lra.
    + rewrite positive_fin_false by lra.
      constructor; [now constructor | ].
      constructor.
      * exists kx, ky. repeat split; try assumption. lra.
      * apply (Forall_impl (P := key_le key y)); [ | assumption].
        intros z [ky' [kz [Hy' [Hz Hle']]]].
        exists kx, kz. repeat split; try assumption.
        assert (ky' = ky) by congruence. lra.
Qed.

Lemma sort_sorted (l : list A) :
  Forall (finite_key key) l ->
  StronglySorted (key_le key) (Arr.sort comparefn l).
Proof.
  induction l as [ | x l IH]; intros Hl; cbn [Arr.sort]; [constructor | ].
  apply Forall_cons_iff in Hl as [Hx Hl].
  apply insert_sorted; [assumption | | now apply IH].
  exact (Permutation_Forall (Permutation_sym (sort_perm comparefn l)) Hl).
Qed.

End SortByKey.

(** ** The order that the sort leaves *)

Section Shown.
Import PrimFloat.
Local Open Scope float_scope.

(** [0.556] is the binary64 value [0x1.1cac083126e98p-1], and
    [0.556 * 1000] is [556]. *)
Lemma formatDistance_556m (ex : R -> string) :
  Binary64.formatDistance ex 0x1.1cac083126e98p-1 = Ok "556m"%string.
Proof.
  pose proof thousand_below_exponent as P.
  rewrite (formatDistance_below_1 ex _
             (1 * IZR 5008002785635992 * powerRZ 2 (-53))%R 556%R).
  - unfold integer_text. destruct (Rlt_dec 556 0); [lra | ].
    rewrite (nearest_eq _ 556) by lra. reflexivity.
  - float_value. reflexivity.
  - float_real.
  - float_value. f_equal. float_real.
  - lra.
Qed.

(** X18.  The order after the sort, whatever the implementation.  The list
    that the final [sort] receives is [annotated], every entry being the one
    that the callback of [stores.map] builds from a distance [d e].  When
    the number read at the head of every text is finite, what [sort] leaves
    is in non-decreasing order of that number: tenths of kilometres and
    metres alike, the unit is not looked at.  (The first hypothesis keeps
    the texts to those that [formatDistance] writes, for which the numbers
    read compare on binary64 values as they do here.) *)
Theorem sort_orders_by_shown_number
        (ex : R -> string) (d : NearbyStore -> float)
        (annotated result : list NearbyStore) :
  Forall (shows ex d) annotated ->
  Forall (finite_key sortKey) annotated ->
  Arr.sorts compareByShown annotated result ->
  StronglySorted (key_le sortKey) result.
Proof.
  intros _ Hfin [_ Hsort].
  rewrite Hsort
    by (apply (consistent_finite_keys sortKey); [reflexivity | exact Hfin]).
  apply (sort_sorted sortKey compareByShown); [reflexivity | exact Hfin].
Qed.

Lemma sort_orders_by_shown_number_witness :
  StronglySorted (key_le sortKey)
    (Arr.sort compareByShown [entry_near 3; entry_far 4]).
Proof.
  apply (sort_orders_by_shown_number (fun _ => EmptyString)
           (fun e => if (id (store e) =? 3)%Z
                     then 0x1.1cac083126e98p-1 else 0x1.bcccccccccccdp+6)
           [entry_near 3; entry_far 4]).
  - constructor; [ | constructor; [ | constructor]].
    + exists (Some "E"%string). unfold Binary64.entry. cbn [store entry_near id onEquator store_at Z.eqb Pos.eqb].
      rewrite formatDistance_556m. reflexivity.
    + exists (Some "E"%string). unfold Binary64.entry. cbn [store entry_far id onEquator store_at Z.eqb Pos.eqb].
      rewrite formatDistance_111_2km. reflexivity.
  - constructor; [ | constructor; [ | constructor]].
    + exists 556%R. apply sortKey_entry_near.
    + exists 111.2%R. apply sortKey_entry_far.
  - apply sorts_sort.
Defined.

End Shown.

(** ** Coordinates that are not finite *)

Section NotFinite.
Import JS.

Lemma isFinite_sub (x y : num) : isFinite (x - y) = isFinite x && isFinite y.
Proof. destruct x as [ | [ | ] | a], y as [ | [ | ] | b]; reflexivity. Qed.

Lemma isFinite_rad (x : num) : isFinite (x * Math.PI / 180) = isFinite x.
Proof.
  destruct x as [ | s | r]; [reflexivity | | now rewrite rad_fin].
  cbn. destruct (Req_dec_T PI 0); reflexivity.
Qed.

Lemma isFinite_half (x : num) : isFinite (x / 2) = isFinite x.
Proof.
  destruct x as [ | s | r]; [reflexivity | reflexivity | ].
  rewrite div_fin by lra. reflexivity.
Qed.

Lemma sin_not_finite (x : num) : isFinite x = false -> Math.sin x = NaN.
Proof. destruct x; [reflexivity | reflexivity | discriminate]. Qed.

Lemma cos_not_finite (x : num) : isFinite x = false -> Math.cos x = NaN.
Proof. destruct x; [reflexivity | reflexivity | discriminate]. Qed.

Lemma mul_NaN_r (x : num) : (x * NaN)%js = NaN.
Proof. now destruct x. Qed.

Lemma add_NaN_r (x : num) : (x + NaN)%js = NaN.
Proof. now destruct x. Qed.

Lemma atan2_NaN_r (y : num) : Math.atan2 y NaN = NaN.
Proof. now destruct y. Qed.

Lemma calculateDistance_not_finite (lat1 lon1 lat2 lon2 : num) :
  isFinite lat1 && isFinite lon1 && isFinite lat2 && isFinite lon2 = false ->
  calculateDistance lat1 lon1 lat2 lon2 = NaN.
Proof.
  intros H. unfold calculateDistance. cbv zeta.
  match goal with |- context [Math.sqrt ?a] => assert (Ha : a = NaN) end.
  { destruct (isFinite lat2 && isFinite lat1) eqn:Elat.
    - assert (Elon : isFinite (lon2 - lon1) = false).
      { rewrite isFinite_sub. apply andb_true_iff in Elat. destruct Elat as [E2 E1].
        rewrite E1, E2 in H. destruct (isFinite lon1), (isFinite lon2);
          try discriminate H; reflexivity. }
      rewrite (sin_not_finite ((lon2 - lon1) * Math.PI / 180 / 2))
        by now rewrite isFinite_half, isFinite_rad.
      now rewrite !mul_NaN_r, add_NaN_r.
    - rewrite (sin_not_finite ((lat2 - lat1) * Math.PI / 180 / 2))
        by now rewrite isFinite_half, isFinite_rad, isFinite_sub.
      reflexivity. }
  rewrite Ha. reflexivity.
Qed.

Lemma calculateDirection_not_finite (lat1 lon1 lat2 lon2 : num) :
  isFinite lat1 && isFinite lon1 && isFinite lat2 && isFinite lon2 = false ->
  calculateDirection lat1 lon1 lat2 lon2 = None.
Proof.
  intros H. unfold calculateDirection, directionIndex, bearing. cbv zeta.
  match goal with |- context [Math.atan2 ?y ?x] =>
    assert (Ha : Math.atan2 y x = NaN) end.
  { destruct (isFinite lat2) eqn:E2.
    - destruct (isFinite lat1) eqn:E1.
      + assert (Elon : isFinite (lon2 - lon1) = false).
        { rewrite isFinite_sub. destruct (isFinite lon1), (isFinite lon2);
            try discriminate H; reflexivity. }
        rewrite (sin_not_finite ((lon2 - lon1) * Math.PI / 180))
          by now rewrite isFinite_rad.
        reflexivity.
      + rewrite (cos_not_finite (lat1 * Math.PI / 180))
          by now rewrite isFinite_rad.
        apply atan2_NaN_r.
    - rewrite (cos_not_finite (lat2 * Math.PI / 180))
        by now rewrite isFinite_rad.
      now rewrite mul_NaN_r. }
  rewrite Ha. reflexivity.
Qed.

End NotFinite.

(** ** The text of an entry *)

Lemma getNearbyStores_entries
      (ex : R -> string) (u : LatLng) (stores : list Store) :
  exists result,
    getNearbyStores ex (Some u) stores = Ok result /\
    forall e, In e result ->
      In (store e) stores /\ storeLocation e = storePoint (store e) /\
      annotate ex u (store e) = Ok e.
Proof.
  destruct (getNearbyStores_sorted_annotated ex u stores) as [annotated [F E]].
  eexists. split; [exact E | ]. intros e He.
  apply sort_In in He.
  destruct (Forall2_In_r _ _ _ _ F He) as [s [Hin Ha]].
  destruct (annotate_store ex u s e Ha) as [Hs Hl].
  rewrite Hs. repeat split; assumption.
Qed.

Lemma annotate_texts (ex : R -> string) (u : LatLng) (s : Store) (e : NearbyStore) :
  annotate ex u s = Ok e ->
  storeLocation e = storePoint s /\
  exists shown,
    formatDistance ex (distanceTo u (storePoint s)) = Ok shown /\
    distance e =
    (shown ++ " (" ++
     Str.to_text (calculateDirection (lat u) (lng u)
                    (lat (storePoint s)) (lng (storePoint s))) ++ ")")%string.
Proof.
  intros Ha. destruct (annotate_ok ex u s) as [shown [Hf Hok]].
  rewrite Hok in Ha. injection Ha as <-.
  split; [reflexivity | ]. exists shown. split; [exact Hf | reflexivity].
Qed.

Lemma annotate_not_finite (ex : R -> string) (u : LatLng) (s : Store) (e : NearbyStore) :
  annotate ex u s = Ok e ->
  finite_pair u (storePoint s) = false ->
  distance e = "NaNm (undefined)"%string.
Proof.
  intros Ha Efin. destruct (annotate_texts ex u s e Ha) as [_ [shown [Hf Hd]]].
  unfold finite_pair in Efin. unfold distanceTo in Hf.
  rewrite calculateDistance_not_finite in Hf by exact Efin.
  rewrite calculateDirection_not_finite in Hd by exact Efin.
  cbn in Hf. injection Hf as <-. exact Hd.
Qed.

(** X9.  The text of a store that cannot be located.  When one of the four
    coordinates that an entry is computed from is not a finite number (a
    [NaN] from a text that does not parse, an infinity), the text of the
    entry is "NaNm (undefined)". *)
Theorem getNearbyStores_not_finite_text
        (ex : R -> string) (u : LatLng) (stores : list Store) :
  exists result,
    getNearbyStores ex (Some u) stores = Ok result /\
    forall e, In e result ->
      finite_pair u (storeLocation e) = false ->
      distance e = "NaNm (undefined)"%string.
Proof.
  destruct (getNearbyStores_entries ex u stores) as [result [E H]].
  exists result. split; [exact E | ]. intros e He Efin.
  destruct (H e He) as [_ [Hloc Ha]].
  rewrite Hloc in Efin. exact (annotate_not_finite ex u _ e Ha Efin).
Qed.

(** ** The two ends of the metres *)

Lemma decimal_digits_1000 : Str.decimal_digits 1000 = "1000"%string.
Proof. reflexivity. Qed.

(** X12.  Below 1 km the text is a whole number of metres between 0 and 1000:
    it reads "1000m" from 999.5 m (where 1 km itself reads "1.0km"), and
    "0m" below half a metre. *)
Theorem formatDistance_metres (ex : R -> string) (km : R) :
  0 <= km < 1 ->
  exists n : Z,
    (0 <= n <= 1000)%Z /\
    formatDistance ex km = Ok (Str.decimal_digits (Z.to_N n) ++ "m")%string /\
    (0.9995 <= km -> formatDistance ex km = Ok "1000m"%string) /\
    (km < 0.0005 -> formatDistance ex km = Ok "0m"%string).
Proof.
  intros Hkm.
  assert (P18 : 0 < 10 ^ 18) by (apply pow_lt; lra).
  assert (P21 : 10 ^ 1 <= 10 ^ 21) by (apply Rle_pow; [lra | lia]).
  assert (E : formatDistance ex km =
              Ok (Str.decimal_digits (Z.to_N (nearest (km * 1000))) ++ "m")%string).
  { rewrite formatDistance_shown by (simpl in P21; lra).
    unfold shownDistance. destruct (Rle_dec 1 km); [lra | ].
    unfold integer_text. destruct (Rlt_dec (km * 1000) 0); [lra | reflexivity]. }
  pose proof (Zfloor_bound (km * 1000 + / 2)) as B. fold (nearest (km * 1000)) in B.
  exists (nearest (km * 1000)). split; [ | split; [exact E | split]].
  - split.
    + apply le_IZR. apply Rnot_lt_le. intros C.
      assert (IZR (nearest (km * 1000)) <= -1)
        by (apply IZR_le; apply lt_IZR in C; lia). lra.
    + apply le_IZR. apply Rnot_lt_le. intros C.
      assert (1001 <= IZR (nearest (km * 1000)))
        by (apply IZR_le; apply lt_IZR in C; lia). lra.
  - intros H. rewrite E. rewrite (nearest_eq _ 1000) by lra. reflexivity.
  - intros H. rewrite E. rewrite (nearest_eq _ 0) by lra. reflexivity.
Qed.

Lemma formatDistance_metres_witness :
  exists n : Z,
    (0 <= n <= 1000)%Z /\
    formatDistance (fun _ => EmptyString) 0.9997 =
      Ok (Str.decimal_digits (Z.to_N n) ++ "m")%string /\
    (0.9995 <= 0.9997 ->
     formatDistance (fun _ => EmptyString) 0.9997 = Ok "1000m"%string) /\
    (0.9997 < 0.0005 ->
     formatDistance (fun _ => EmptyString) 0.9997 = Ok "0m"%string).
Proof.
  apply formatDistance_metres. lra.
Defined.

(** ** The components *)

Import Component.

Lemma located_ok (ex toString : R -> string) (a b : JS.num) :
  exists link text,
    located ex toString a b =
    Ok {| UserLocation.lat := a; UserLocation.lng := b;
          UserLocation.googleMapsLink := Some link;
          UserLocation.coordinates := Some text |}.
Proof.
  unfold located.
  destruct (toFixed_ok ex a 6) as [sa ->]; [lia | ].
  destruct (toFixed_ok ex b 6) as [sb ->]; [lia | ].
  cbn. eexists. eexists. reflexivity.
Qed.

Lemma settled_step (ex toString : R -> string) (c : Running) (e : Event) :
  settled c -> settled (step ex toString c e).
Proof.
  unfold settled. intros (P & L & Err & Msg & Loc). destruct e as [ | o]; cbn.
  - destruct (loading (state c)) eqn:El.
    + rewrite El. repeat split; try assumption; apply L.
    + assert (P0 : pending c = 0%nat).
      { destruct (pending c) as [ | [ | n]]; [reflexivity | | lia].
        destruct L as [_ L]. specialize (L eq_refl). discriminate. }
      rewrite P0. cbn. repeat split; auto.
  - destruct (pending c) as [ | n] eqn:Ep.
    + rewrite Ep. repeat split; try assumption; apply L.
    + assert (n = 0%nat) by lia. subst n.
      unfold getUserLocation_end. cbn.
      repeat split; try lia; try discriminate.
      * destruct o as [a b | ]; [ | cbn; now right].
        destruct (located_ok ex toString a b) as [link [text ->]]. cbn. exact Msg.
      * intros u. destruct o as [a b | ]; [ | cbn; apply Loc].
        destruct (located_ok ex toString a b) as [link [text ->]]. cbn.
        intros E. injection E as <-. cbn. eauto.
Qed.

Lemma settled_run (ex toString : R -> string) (c : Running) (events : list Event) :
  settled c -> settled (run ex toString c events).
Proof.
  revert c. induction events as [ | e events IH]; intros c H; [exact H | ].
  cbn. apply IH. now apply settled_step.
Qed.

Lemma settled_mount (component : Name) : settled (mount component).
Proof.
  unfold settled.
  destruct component;
    (repeat split; cbn; try lia; try discriminate; try tauto; auto).
Qed.

(** X13.  Requests never overlap.  In both components, whatever the clicks
    and the outcomes of the requests, at most one request is pending, and
    [loading] (the button is disabled, it reads "Getting Location...") is
    true exactly while one is pending. *)
Theorem requests_never_overlap
        (ex toString : R -> string) (component : Name) (events : list Event) :
  let c := run ex toString (mount component) events in
  (pending c <= 1)%nat /\
  (loading (state c) = true <-> pending c = 1%nat).
Proof.
  intros c.
  destruct (settled_run ex toString (mount component) events
              (settled_mount component)) as (P & L & _).
  split; [exact P | exact L].
Qed.

(** X14.  The outcome of a request.  When the pending request is fulfilled,
    the location becomes the new position and no error is shown; when it is
    rejected, the error message is shown and the previous location (and so
    the list computed from it) stays. *)
Theorem request_outcome
        (ex toString : R -> string) (component : Name) (events : list Event)
        (o : Outcome) :
  let c := run ex toString (mount component) events in
  pending c = 1%nat ->
  let c' := step ex toString c (Settle o) in
  pending c' = 0%nat /\ loading (state c') = false /\
  match o with
  | Resolved a b =>
      error (state c') = None /\
      exists link text,
        userLocation (state c') =
        Some {| UserLocation.lat := a; UserLocation.lng := b;
                UserLocation.googleMapsLink := Some link;
                UserLocation.coordinates := Some text |}
  | Rejected =>
      error (state c') = Some unable /\
      userLocation (state c') = userLocation (state c)
  end.
Proof.
  intros c Hp c'.
  destruct (settled_run ex toString (mount component) events
              (settled_mount component)) as (_ & L & Err & _).
  fold c in L, Err.
  assert (Hl : loading (state c) = true) by now apply L.
  specialize (Err Hl).
  unfold c', step. rewrite Hp. cbn. split; [reflexivity | ].
  split; [reflexivity | ].
  destruct o as [a b | ]; [ | split; reflexivity].
  destruct (located_ok ex toString a b) as [link [text ->]]. cbn.
  split; [exact Err | ]. now exists link, text.
Qed.

Lemma request_outcome_witness :
  let c := run (fun _ => EmptyString) (fun _ => EmptyString)
               (mount NearbyStores) [] in
  let c' := step (fun _ => EmptyString) (fun _ => EmptyString) c (Settle Rejected) in
  pending c' = 0%nat /\ loading (state c') = false /\
  error (state c') = Some unable /\
  userLocation (state c') = userLocation (state c).
Proof.
  apply (request_outcome (fun _ => EmptyString) (fun _ => EmptyString)
           NearbyStores [] Rejected).
  reflexivity.
Defined.

(** ** What is rendered *)

Lemma getNearbyStores_stores
      (ex : R -> string) (u : LatLng) (stores : list Store) :
  exists result,
    getNearbyStores ex (Some u) stores = Ok result /\
    Permutation (map store result) stores.
Proof.
  destruct (getNearbyStores_sorted_annotated ex u stores) as [annotated [F E]].
  eexists. split; [exact E | ].
  pose proof (annotated_stores ex u stores annotated F) as M.
  rewrite <- M. apply Permutation_map. apply sort_perm.
Qed.

Lemma asked_step (ex toString : R -> string) (c : Running) (e : Event) :
  asked c -> asked (step ex toString c e).
Proof.
  unfold asked. intros H. destruct e as [ | o]; cbn.
  - destruct (loading (state c)) eqn:El; [now rewrite El | reflexivity].
  - destruct (pending c) as [ | n]; [exact H | ].
    unfold getUserLocation_end. destruct o as [a b | ]; cbn.
    + destruct (located_ok ex toString a b) as [link [text ->]]. cbn. discriminate.
    + discriminate.
Qed.

Lemma asked_run (ex toString : R -> string) (c : Running) (events : list Event) :
  asked c -> asked (run ex toString c events).
Proof.
  revert c. induction events as [ | e events IH]; intros c H; [exact H | ].
  cbn. apply IH. now apply asked_step.
Qed.

(** The function of the component returns its elements without throwing.
    With a location, they are the map and one card per store of the [stores]
    given (the names on the cards are those of the stores, in some order),
    or "No nearby stores found" when there is no store; without a location,
    "Getting your location..." unless an error is shown. *)
Lemma render_returns
        (ex toString : R -> string) (stores : list Store) (s : State) :
  exists v,
    render ex toString stores s = Ok v /\
    refreshDisabled v = loading s /\
    match userLocation s with
    | Some u =>
        match stores with
        | [] => body v = NoStores
        | _ :: _ =>
            exists cards,
              body v = Stores (UserLocation.point u) cards /\
              Permutation (map title cards) (map name stores)
        end
    | None =>
        body v = if truthy (error s) then Blank else GettingLocation
    end.
Proof.
  unfold render. destruct (userLocation s) as [u | ] eqn:Eu; cbn [option_map].
  - destruct (getNearbyStores_stores ex (UserLocation.point u) stores)
      as [result [-> P]].
    cbn. eexists. split; [reflexivity | ]. split; [reflexivity | ]. cbn.
    pose proof (Permutation_length P) as L. rewrite length_map in L.
    destruct stores as [ | s0 stores].
    + destruct result; [reflexivity | discriminate L].
    + destruct result as [ | e result]; [discriminate L | ].
      cbn [List.length Nat.ltb Nat.leb].
      eexists. split; [reflexivity | ].
      rewrite map_map. change (fun x => title (card toString x))
        with (fun x => name (store x)).
      rewrite <- (map_map store name). now apply Permutation_map.
  - cbn. eexists. split; [reflexivity | ]. split; reflexivity.
Qed.

Lemma forallb_Permutation {A : Type} (f : A -> bool) (l l' : list A) :
  Permutation l l' -> forallb f l = forallb f l'.
Proof.
  induction 1 as [ | x l l' _ IH | x y l | l l' l'' _ IH1 _ IH2]; cbn.
  - reflexivity.
  - now rewrite IH.
  - destruct (f x), (f y); reflexivity.
  - now rewrite IH1.
Qed.

(** X15.  What stands below the header, and what the map makes of it.  The
    function of the component returns its elements without throwing: with a
    location, the map and one card per store of the [stores] given (the
    names on the cards are those of the stores, in some order), or "No
    nearby stores found" when there is no store; without a location,
    "Getting your location..." unless an error is shown.  With no map among
    them the elements are shown.  With a map, Leaflet receives the user's
    position and the position of every store, and rejects a [NaN]
    coordinate: when the user's position has one, or a store's latitude or
    longitude text does not parse, nothing is shown, Leaflet throws. *)
Theorem draw_body
        (ex toString : R -> string) (accepts : LatLng -> bool)
        (stores : list Store) (s : State) :
  (forall p, accepts p = true -> isNaN (lat p) = false /\ isNaN (lng p) = false) ->
  exists v,
    render ex toString stores s = Ok v /\
    refreshDisabled v = loading s /\
    match userLocation s with
    | Some u =>
        match stores with
        | [] => body v = NoStores /\ draw ex toString accepts stores s = Ok (Shown v)
        | _ :: _ =>
            (exists cards,
               body v = Stores (UserLocation.point u) cards /\
               Permutation (map title cards) (map name stores)) /\
            draw ex toString accepts stores s =
            Ok (if forallb accepts
                     (UserLocation.point u :: UserLocation.point u ::
                      map storePoint stores)
                then Shown v else InvalidLatLng) /\
            (isNaN (UserLocation.lat u) || isNaN (UserLocation.lng u) ||
             existsb (fun st => isNaN (lat (storePoint st)) ||
                                isNaN (lng (storePoint st))) stores = true ->
             draw ex toString accepts stores s = Ok InvalidLatLng)
        end
    | None =>
        body v = (if truthy (error s) then Blank else GettingLocation) /\
        draw ex toString accepts stores s = Ok (Shown v)
    end.
Proof.
  intros Hacc.
  destruct (render_returns ex toString stores s) as [v [Ev [Hl Hb]]].
  exists v. split; [exact Ev | ]. split; [exact Hl | ].
  unfold draw. rewrite Ev.
  destruct (userLocation s) as [u | ] eqn:Eu; cbn [option_map].
  - destruct (getNearbyStores_entries ex (UserLocation.point u) stores)
      as [result [E He]].
    destruct (getNearbyStores_stores ex (UserLocation.point u) stores)
      as [result' [E' P]].
    rewrite E in E'. injection E' as <-.
    rewrite E. cbn [bind].
    pose proof (Permutation_length P) as L. rewrite length_map in L.
    destruct stores as [ | s0 stores].
    + split; [exact Hb | ]. destruct result; [reflexivity | discriminate L].
    + split; [exact Hb | ].
      destruct result as [ | e result]; [discriminate L | ].
      cbn [List.length Nat.ltb Nat.leb].
      assert (M : map storeLocation (e :: result) =
                  map storePoint (map store (e :: result))).
      { rewrite map_map. apply map_ext_in. intros a Ha.
        now destruct (He a Ha) as [_ [Hloc _]]. }
      assert (D : forallb accepts (positions u (e :: result)) =
                  forallb accepts
                    (UserLocation.point u :: UserLocation.point u ::
                     map storePoint (s0 :: stores))).
      { unfold positions. rewrite M. cbn [forallb]. f_equal. f_equal.
        apply forallb_Permutation. now apply Permutation_map. }
      rewrite D. split; [reflexivity | ].
      intros Hnan.
      replace (forallb accepts
                 (UserLocation.point u :: UserLocation.point u ::
                  map storePoint (s0 :: stores))) with false; [reflexivity | ].
      symmetry. apply not_true_is_false. intros Hall.
      rewrite forallb_forall in Hall.
      apply orb_true_iff in Hnan. destruct Hnan as [Hu | Hs].
      * destruct (Hacc (UserLocation.point u)) as [H1 H2];
          [apply Hall; now left | ].
        cbn [UserLocation.point lat lng] in H1, H2.
        rewrite H1, H2 in Hu. discriminate Hu.
      * apply existsb_exists in Hs. destruct Hs as [st [Hin Hst]].
        destruct (Hacc (storePoint st)) as [H1 H2].
        { apply Hall. right. right. now apply in_map. }
        rewrite H1, H2 in Hst. discriminate Hst.
  - cbn [bind]. split; [exact Hb | reflexivity].
Qed.

Lemma draw_body_witness :
  exists v,
    render (fun _ => EmptyString) (fun _ => EmptyString) [] initial = Ok v /\
    refreshDisabled v = false /\
    body v = GettingLocation /\
    draw (fun _ => EmptyString) (fun _ => EmptyString)
      (fun p => negb (isNaN (lat p)) && negb (isNaN (lng p))) [] initial =
    Ok (Shown v).
Proof.
  destruct (draw_body (fun _ => EmptyString) (fun _ => EmptyString)
              (fun p => negb (isNaN (lat p)) && negb (isNaN (lng p)))
              [] initial) as [v [E [L [B D]]]].
  - intros p H. apply andb_true_iff in H. destruct H as [H1 H2].
    split; [now destruct (isNaN (lat p)) | now destruct (isNaN (lng p))].
  - exists v. repeat split; assumption.
Defined.

(** X16.  "Getting your location...".  In [NearbyStores], once mounted, the
    message is shown only while a request is pending (the button is then
    disabled).  In [StoreMap], which requests nothing when it mounts, the
    first view shows the message with no request pending and the button
    enabled. *)
Theorem getting_location_message (ex toString : R -> string) (stores : list Store) :
  (forall (events : list Event) (v : View),
     let c := run ex toString (mount NearbyStores) events in
     render ex toString stores (state c) = Ok v ->
     body v = GettingLocation ->
     pending c = 1%nat /\ refreshDisabled v = true) /\
  (exists v,
     render ex toString stores (state (mount StoreMap)) = Ok v /\
     body v = GettingLocation /\
     pending (mount StoreMap) = 0%nat /\ refreshDisabled v = false).
Proof.
  split.
  - intros events v c Hr Hb.
    destruct (settled_run ex toString (mount NearbyStores) events
                (settled_mount NearbyStores)) as (_ & L & _ & Msg & _).
    assert (A : asked c).
    { apply asked_run. unfold asked. reflexivity. }
    fold c in L, Msg. unfold render in Hr.
    destruct (userLocation (state c)) as [u | ] eqn:Eu; cbn [option_map] in Hr.
    + destruct (getNearbyStores_stores ex (UserLocation.point u) stores)
        as [result [E _]].
      rewrite E in Hr. cbn in Hr. injection Hr as <-.
      destruct result as [ | e result]; cbn in Hb; discriminate Hb.
    + cbn in Hr. injection Hr as <-. cbn in Hb |- *.
      assert (En : error (state c) = None).
      { destruct Msg as [E | E]; [exact E | ].
        rewrite E in Hb. discriminate Hb. }
      unfold asked in A. specialize (A Eu En).
      split; [now apply L | exact A].
  - cbn. eexists. repeat split.
Qed.

Lemma getting_location_message_witness :
  pending (run (fun _ => EmptyString) (fun _ => EmptyString)
             (mount NearbyStores) []) = 1%nat /\
  refreshDisabled
    {| refreshDisabled := true; refreshLabel := "Getting Location...";
       viewOnMap := None; errorShown := None; yourLocation := None;
       body := GettingLocation |} = true.
Proof.
  apply (proj1 (getting_location_message (fun _ => EmptyString)
                  (fun _ => EmptyString) sampleStores) []);
    reflexivity.
Defined.

(** ** The location typed by hand *)

(** X17.  [setManualLocationHandler] never throws and touches neither
    [loading] nor [error].  It leaves the state as it is when one of the two
    texts does not start with a number, and sets the location to the two
    numbers read otherwise.  The guard is [isNaN]: an infinite coordinate
    ("Infinity") is accepted, and every store then reads
    "NaNm (undefined)". *)
Theorem setManualLocationHandler_guard
        (ex toString : R -> string) (m : ManualLocation.t) (s : State)
        (stores : list Store) :
  let lat := Str.parseFloat (ManualLocation.lat m) in
  let lon := Str.parseFloat (ManualLocation.lon m) in
  exists s',
    setManualLocationHandler ex toString m s = Ok s' /\
    loading s' = loading s /\ error s' = error s /\
    if isNaN lat || isNaN lon then s' = s
    else
      (exists link text,
         userLocation s' =
         Some {| UserLocation.lat := lat; UserLocation.lng := lon;
                 UserLocation.googleMapsLink := Some link;
                 UserLocation.coordinates := Some text |}) /\
      (isFinite lat && isFinite lon = false ->
       exists result,
         getNearbyStores ex (Some (Build_LatLng lat lon)) stores = Ok result /\
         forall e, In e result -> distance e = "NaNm (undefined)"%string).
Proof.
  intros la lo. unfold setManualLocationHandler. fold la lo.
  destruct (isNaN la || isNaN lo) eqn:Eg.
  - replace (negb (isNaN la) && negb (isNaN lo)) with false
      by (destruct (isNaN la), (isNaN lo); try discriminate Eg; reflexivity).
    exists s. repeat split.
  - replace (negb (isNaN la) && negb (isNaN lo)) with true
      by (destruct (isNaN la), (isNaN lo); try discriminate Eg; reflexivity).
    destruct (located_ok ex toString la lo) as [link [text ->]]. cbn.
    eexists. split; [reflexivity | ]. split; [reflexivity | ].
    split; [reflexivity | ]. split; [now exists link, text | ].
    intros Hfin.
    destruct (getNearbyStores_entries ex (Build_LatLng la lo) stores)
      as [result [E H]].
    exists result. split; [exact E | ]. intros e He.
    destruct (H e He) as [_ [_ Ha]].
    apply (annotate_not_finite ex _ _ e Ha).
    unfold finite_pair. cbn [lat lng].
    destruct (isFinite la), (isFinite lo); try discriminate Hfin; reflexivity.
Qed.

Lemma setManualLocationHandler_guard_witness :
  exists result,
    getNearbyStores (fun _ => EmptyString)
      (Some (Build_LatLng (Str.parseFloat "Infinity") (Str.parseFloat "85.3292")))
      sampleStores = Ok result /\
    forall e, In e result -> distance e = "NaNm (undefined)"%string.
Proof.
  destruct (setManualLocationHandler_guard (fun _ => EmptyString)
              (fun _ => EmptyString)
              {| ManualLocation.lat := "Infinity"; ManualLocation.lon := "85.3292" |}
              initial sampleStores) as [s' [_ [_ [_ H]]]].
  cbv zeta in H. cbn [ManualLocation.lat ManualLocation.lon] in H.
  change (isNaN (Str.parseFloat "Infinity") || isNaN (Str.parseFloat "85.3292"))
    with false in H.
  apply (proj2 H). reflexivity.
Defined.
